(** * pypacket: layer composition and length propagation

    A shallow embedding of [pylayers.py] (the layer classes [IPv4Layer],
    [UDPLayer], [Payload] and the composer [serialize_layers]) and of the
    call made by [main.py], followed by the properties of the
    specification that concern them.

    Python integers are unbounded: they are [Z].  [bytes] objects are
    [list byte], [str] objects are [string] (their UTF-8 encoding), the
    keyword dictionary [**opts] is a [gmap string Z].  Layer instances are
    mutable objects that a caller may pass more than once to the composer,
    so they live in a store addressed by references. *)

From Stdlib Require Import ZArith NArith Strings.Byte Ascii String Lia.
From Stdlib Require Import DecimalString Decimal DecimalFacts DecimalPos DecimalN.
From stdpp Require Import base option list functions gmap strings.

Local Open Scope Z_scope.

(** ** Exceptions *)

(** The exception classes.  [OSError] and [ValueError] are raised by
    [socket.inet_aton], [StructError] is [struct.error] raised by
    [struct.pack], [UnboundLocalError] is what reading the local
    [curr_payload] before its first assignment would raise.  The last four
    are the names of the specification's error taxonomy; [pylayers.py]
    defines no exception class and no path below builds one of them. *)
Inductive exn : Set :=
  | OSError
  | ValueError
  | StructError
  | UnboundLocalError
  | AddressParseError
  | FieldOverflowError
  | LengthOverflowError
  | EmptyLayerSequenceError.

(** A computation that returns or raises. *)
Definition result (A : Type) : Type := exn + A.

Definition rbind {A B : Type} (r : result A) (k : A -> result B) : result B :=
  match r with
  | inl e => inl e
  | inr a => k a
  end.

(** ** Bytes *)

Definition byte_of_Z (z : Z) : byte :=
  default x00 (Byte.of_N (Z.to_N z)).

Definition Z_of_byte (b : byte) : Z := Z.of_N (Byte.to_N b).

(** ** [struct.pack] with the network-order prefix ["!"]

    Standard sizes, no padding between the items.  The format codes used by
    the program are [B] (unsigned char), [H] (unsigned short) and [4s]
    (a bytes field of four bytes). *)

Inductive pyval : Set :=
  | PyInt (z : Z)
  | PyBytes (b : list byte).

Inductive fmt : Set :=
  | FB
  | FH
  | Fs (n : nat).

(** The two bytes of an unsigned short, most significant first. *)
Definition be16 (z : Z) : list byte :=
  [byte_of_Z (Z.shiftr z 8); byte_of_Z (Z.land z 255)].

(** A bytes argument cut or padded with null bytes to [n] bytes. *)
Definition pad_to (n : nat) (b : list byte) : list byte :=
  take n (b ++ replicate n x00).

(** One item.  An integer outside the range of its code, or an argument of
    the wrong kind, raises [struct.error]; a bytes argument is truncated or
    padded with null bytes to the width of the field. *)
Definition pack_item (f : fmt) (v : pyval) : result (list byte) :=
  match f, v with
  | FB, PyInt z =>
      if (0 <=? z) && (z <=? 255) then inr [byte_of_Z z] else inl StructError
  | FH, PyInt z =>
      if (0 <=? z) && (z <=? 65535) then inr (be16 z) else inl StructError
  | Fs n, PyBytes b => inr (pad_to n b)
  | _, _ => inl StructError
  end.

(** [struct.calcsize] of one format code. *)
Definition fmt_size (f : fmt) : nat :=
  match f with
  | FB => 1
  | FH => 2
  | Fs n => n
  end.

Fixpoint pack (fs : list fmt) (vs : list pyval) : result (list byte) :=
  match fs, vs with
  | [], [] => inr []
  | f :: fs', v :: vs' =>
      rbind (pack_item f v) (fun b =>
      rbind (pack fs' vs') (fun bs => inr (b ++ bs)))
  | _, _ => inl StructError
  end.

(** The two format strings of the program. *)
Definition fmt_ipv4 : list fmt := [FB; FB; FH; FH; FH; FB; FB; FH; Fs 4; Fs 4].
Definition fmt_udp : list fmt := [FH; FH; FH; FH].

(** ** [io.BytesIO]

    The buffer is only ever written at its end, so it is its contents. *)
Definition BytesIO : Type := list byte.

Definition BytesIO_write (buf : BytesIO) (b : list byte) : BytesIO := buf ++ b.

(** ** [socket.inet_aton]

    The C library's parser of the numbers-and-dots notation: one to four
    parts separated by dots, each part a C integer literal (decimal, octal
    with a leading 0, hexadecimal with a leading 0x); all parts but the
    last fill one byte, the last part fills the remaining bytes; anything
    after the first white-space character following the address is
    ignored.  Python raises [ValueError] for a string with an embedded null
    character and [OSError] when the C function rejects the string. *)

Definition code (c : ascii) : N := N_of_ascii c.

Definition isdigit (c : ascii) : bool :=
  ((48 <=? code c) && (code c <=? 57))%N.

Definition isspace (c : ascii) : bool :=
  ((code c =? 32) || ((9 <=? code c) && (code c <=? 13)))%N.

(** The value of [c] as a digit in [base], when it is one. *)
Definition digit_val (base : N) (c : ascii) : option N :=
  let n := code c in
  let v :=
    (if (48 <=? n) && (n <=? 57) then Some (n - 48)
     else if (97 <=? n) && (n <=? 102) then Some (n - 87)
     else if (65 <=? n) && (n <=? 70) then Some (n - 55)
     else None)%N in
  match v with
  | Some d => if (d <? base)%N then Some d else None
  | None => None
  end.

(** Consume the longest run of digits of [base], accumulating onto [acc]. *)
Fixpoint digits (base : N) (acc : N) (s : string) : N * string :=
  match s with
  | String c s' =>
      match digit_val base c with
      | Some d => digits base (acc * base + d)%N s'
      | None => (acc, s)
      end
  | EmptyString => (acc, s)
  end.

(** [strtoul(cp, &endp, 0)] on a string that starts with a digit: the base
    is taken from the prefix.  The value is not truncated here; the caller
    rejects everything above [0xffffffff]. *)
Definition strtoul0 (s : string) : N * string :=
  match s with
  | String "0" (String x (String h s')) =>
      if (((code x =? 120) || (code x =? 88))%N
          && bool_decide (is_Some (digit_val 16 h)))%bool
      then digits 16 0%N (String h s')
      else digits 8 0%N s
  | String "0" _ => digits 8 0%N s
  | _ => digits 10 0%N s
  end.

(** The big-endian bytes of [val] in a field of [n] bytes. *)
Fixpoint be_bytes (n : nat) (val : N) : list byte :=
  match n with
  | O => []
  | S n' =>
      be_bytes n' (val / 256)%N ++ [default x00 (Byte.of_N (val mod 256)%N)]
  end.

(** After the last part: nothing but white space may follow the number,
    and the number has to fit the bytes that are left. *)
Definition inet_aton_last (pp : list byte) (val : N) (rest : string)
  : option (list byte) :=
  let trailing_ok :=
    match rest with
    | EmptyString => true
    | String c _ => (code c <? 128)%N && isspace c
    end in
  if negb trailing_ok then None
  else if (256 ^ N.of_nat (4 - length pp) <=? val)%N then None
  else Some (pp ++ be_bytes (4 - length pp) val).

(** The loop of the C function: [pp] holds the bytes stored so far; [fuel]
    bounds the number of parts by the length of the string. *)
Fixpoint inet_aton_loop (fuel : nat) (pp : list byte) (s : string)
  : option (list byte) :=
  match fuel with
  | O => None
  | S fuel' =>
      match s with
      | String c _ =>
          if isdigit c then
            let '(val, rest) := strtoul0 s in
            if (4294967295 <? val)%N then None
            else
              match rest with
              | String c' rest' =>
                  if (code c' =? 46)%N then
                    if (2 <? length pp)%nat || (255 <? val)%N then None
                    else inet_aton_loop fuel'
                           (pp ++ [default x00 (Byte.of_N val)]) rest'
                  else inet_aton_last pp val rest
              | EmptyString => inet_aton_last pp val rest
              end
          else None
      | EmptyString => None
      end
  end.

Fixpoint has_nul (s : string) : bool :=
  match s with
  | EmptyString => false
  | String c s' => (code c =? 0)%N || has_nul s'
  end.

Definition inet_aton (ip_string : string) : result (list byte) :=
  if has_nul ip_string then inl ValueError
  else
    match inet_aton_loop (S (String.length ip_string)) [] ip_string with
    | Some b => inr b
    | None => inl OSError
    end.

(** ** The layer classes *)

(** The abstract base class [Layer].  [set_length] assigns to an attribute
    of [self]: it returns the instance after the assignment.  A [serialize]
    that raises leaves the buffer as it was, since [struct.pack] is
    evaluated before [buf.write] is called. *)
Class Layer (T : Type) : Type := {
  set_length : T -> Z -> T;
  get_total_length : T -> Z;
  get_payload_length : T -> Z;
  has_checksum : T -> bool;
  serialize : T -> BytesIO -> result BytesIO
}.

Definition IPV4_EVIL_BIT : Z := Z.shiftl 1 2.
Definition IPV4_DONT_FRAGMENT : Z := Z.shiftl 1 1.
Definition IPV4_MORE_FRAGMENTS : Z := Z.shiftl 1 0.

(** [opts.get(key, dflt)] *)
Definition opts_get (opts : gmap string Z) (key : string) (dflt : Z) : Z :=
  default dflt (opts !! key).

Module IPv4Layer.

Record t : Type := mk {
  verihl : Z;
  dscp_ecn : Z;
  total_length : Z;
  id : Z;
  flags : Z;
  fragment_offset : Z;
  flags_fragment_offset : Z;
  ttl : Z;
  protocol : Z;
  checksum : Z;
  src_ip : list byte;
  dst_ip : list byte
}.

Definition __init__ (protocol : Z) (src_ip dst_ip : string)
    (opts : gmap string Z) : result t :=
  let verihl := Z.shiftl 4 4 + 5 in
  let dscp_ecn := Z.shiftl 0 6 + 0 in
  let total_length := opts_get opts "total_length" 0 in
  let id := opts_get opts "id" 0 in
  let flags := opts_get opts "flags" 0 in
  let fragment_offset := opts_get opts "fragment_offset" 0 in
  let flags_fragment_offset := Z.shiftl flags 13 + fragment_offset in
  let ttl := opts_get opts "ttl" 64 in
  let checksum := opts_get opts "checksum" 0 in
  rbind (inet_aton src_ip) (fun src =>
  rbind (inet_aton dst_ip) (fun dst =>
  inr (mk verihl dscp_ecn total_length id flags fragment_offset
          flags_fragment_offset ttl protocol checksum src dst))).

Definition set_length (self : t) (payload_length : Z) : t :=
  mk (verihl self) (dscp_ecn self) (20 + payload_length) (id self)
     (flags self) (fragment_offset self) (flags_fragment_offset self)
     (ttl self) (protocol self) (checksum self) (src_ip self) (dst_ip self).

Definition get_total_length (self : t) : Z := total_length self.

Definition get_payload_length (self : t) : Z := total_length self - 20.

Definition has_checksum (self : t) : bool := false.

Definition serialize (self : t) (buf : BytesIO) : result BytesIO :=
  rbind
    (pack fmt_ipv4
       [PyInt (verihl self); PyInt (dscp_ecn self);
        PyInt (total_length self); PyInt (id self);
        PyInt (flags_fragment_offset self); PyInt (ttl self);
        PyInt (protocol self); PyInt (checksum self);
        PyBytes (src_ip self); PyBytes (dst_ip self)])
    (fun b => inr (BytesIO_write buf b)).

End IPv4Layer.

Module UDPLayer.

Record t : Type := mk {
  src_port : Z;
  dst_port : Z;
  length : Z;
  checksum : Z
}.

Definition __init__ (src_port dst_port : Z) (opts : gmap string Z)
  : result t :=
  inr (mk src_port dst_port (opts_get opts "length" 0)
          (opts_get opts "checksum" 0)).

Definition set_length (self : t) (payload_length : Z) : t :=
  mk (src_port self) (dst_port self) (8 + payload_length) (checksum self).

Definition get_total_length (self : t) : Z := length self.

Definition get_payload_length (self : t) : Z := length self - 8.

Definition has_checksum (self : t) : bool := true.

Definition serialize (self : t) (buf : BytesIO) : result BytesIO :=
  rbind
    (pack fmt_udp
       [PyInt (src_port self); PyInt (dst_port self);
        PyInt (length self); PyInt (checksum self)])
    (fun b => inr (BytesIO_write buf b)).

End UDPLayer.

Module Payload.

Record t : Type := mk { payload : list byte }.

Definition __init__ (payload : list byte) : result t := inr (mk payload).

Definition set_length (self : t) (payload_length : Z) : t := self.

Definition get_total_length (self : t) : Z :=
  Z.of_nat (List.length (payload self)).

Definition get_payload_length (self : t) : Z :=
  Z.of_nat (List.length (payload self)).

Definition has_checksum (self : t) : bool := false.

Definition serialize (self : t) (buf : BytesIO) : result BytesIO :=
  inr (BytesIO_write buf (payload self)).

End Payload.

#[export] Instance IPv4Layer_Layer : Layer IPv4Layer.t := {
  set_length := IPv4Layer.set_length;
  get_total_length := IPv4Layer.get_total_length;
  get_payload_length := IPv4Layer.get_payload_length;
  has_checksum := IPv4Layer.has_checksum;
  serialize := IPv4Layer.serialize
}.

#[export] Instance UDPLayer_Layer : Layer UDPLayer.t := {
  set_length := UDPLayer.set_length;
  get_total_length := UDPLayer.get_total_length;
  get_payload_length := UDPLayer.get_payload_length;
  has_checksum := UDPLayer.has_checksum;
  serialize := UDPLayer.serialize
}.

#[export] Instance Payload_Layer : Layer Payload.t := {
  set_length := Payload.set_length;
  get_total_length := Payload.get_total_length;
  get_payload_length := Payload.get_payload_length;
  has_checksum := Payload.has_checksum;
  serialize := Payload.serialize
}.

(** A layer instance is an instance of one of the three concrete classes;
    a method call dispatches on the class. *)
Inductive obj : Type :=
  | IPv4 (x : IPv4Layer.t)
  | UDP (x : UDPLayer.t)
  | Pay (x : Payload.t).

#[export] Instance obj_Layer : Layer obj := {
  set_length o n :=
    match o with
    | IPv4 x => IPv4 (set_length x n)
    | UDP x => UDP (set_length x n)
    | Pay x => Pay (set_length x n)
    end;
  get_total_length o :=
    match o with
    | IPv4 x => get_total_length x
    | UDP x => get_total_length x
    | Pay x => get_total_length x
    end;
  get_payload_length o :=
    match o with
    | IPv4 x => get_payload_length x
    | UDP x => get_payload_length x
    | Pay x => get_payload_length x
    end;
  has_checksum o :=
    match o with
    | IPv4 x => has_checksum x
    | UDP x => has_checksum x
    | Pay x => has_checksum x
    end;
  serialize o buf :=
    match o with
    | IPv4 x => serialize x buf
    | UDP x => serialize x buf
    | Pay x => serialize x buf
    end
}.

(** ** The store and the method calls *)

(** A reference to a layer instance. *)
Abbreviation loc := nat.

(** A method call on a layer instance, as observed by the caller. *)
Inductive call : Type :=
  | Call_get_total_length (r : loc)
  | Call_set_length (r : loc) (payload_length : Z)
  | Call_serialize (r : loc).

(** The state of a run: the layer instances, the [BytesIO] object that
    [serialize_layers] creates, and the method calls made so far, oldest
    first.  Every reference denotes an instance, so the store is a total
    function; two references to the same instance are the same [loc]. *)
Record state : Type := mkstate {
  heap : loc -> obj;
  buf : BytesIO;
  calls : list call
}.

(** A statement: it changes the state and returns or raises. *)
Definition M (A : Type) : Type := state -> state * result A.

#[export] Instance M_ret : MRet M := fun A a s => (s, inr a).

#[export] Instance M_bind : MBind M := fun A B k m s =>
  match m s with
  | (s', inl e) => (s', inl e)
  | (s', inr a) => k a s'
  end.

Definition raise {A : Type} (e : exn) : M A := fun s => (s, inl e).

Definition log (c : call) (s : state) : state :=
  mkstate (heap s) (buf s) (calls s ++ [c]).

(** [layer.get_total_length()] *)
Definition m_get_total_length (layer : loc) : M Z := fun s =>
  (log (Call_get_total_length layer) s, inr (get_total_length (heap s layer))).

(** [layer.set_length(payload_length)] *)
Definition m_set_length (layer : loc) (payload_length : Z) : M unit := fun s =>
  let s := log (Call_set_length layer payload_length) s in
  (mkstate (<[layer := set_length (heap s layer) payload_length]> (heap s))
           (buf s) (calls s),
   inr tt).

(** [layer.serialize(buf)] *)
Definition m_serialize (layer : loc) : M unit := fun s =>
  let s := log (Call_serialize layer) s in
  match serialize (heap s layer) (buf s) with
  | inl e => (s, inl e)
  | inr b => (mkstate (heap s) b (calls s), inr tt)
  end.

(** [buf = io.BytesIO()] *)
Definition m_BytesIO : M unit := fun s =>
  (mkstate (heap s) [] (calls s), inr tt).

(** [buf.getvalue()] *)
Definition m_getvalue : M (list byte) := fun s => (s, inr (buf s)).

(** Reading a local variable that may not have been assigned yet. *)
Definition read_local {A : Type} (v : option A) : M A :=
  match v with
  | Some a => mret a
  | None => raise UnboundLocalError
  end.

(** [for x in xs: body], the locals that the body assigns threaded
    through the iterations. *)
Fixpoint for_each {A B : Type} (xs : list A) (body : A -> B -> M B) (locals : B)
  : M B :=
  match xs with
  | [] => mret locals
  | x :: xs' => locals' ← body x locals; for_each xs' body locals'
  end.

(** ** The composer *)

(** The body of the first loop; the locals are [first_time] and
    [curr_payload], the latter declared without a value. *)
Definition backward_body (layer : loc) (locals : bool * option Z)
  : M (bool * option Z) :=
  let '(first_time, curr_payload) := locals in
  if first_time then
    n ← m_get_total_length layer;
    mret (false, Some n)
  else
    p ← read_local curr_payload;
    m_set_length layer p;;
    n ← m_get_total_length layer;
    mret (first_time, Some n).

(** The composer, called with any number of layers.  [buf.flush()] and
    [buf.close()] do not change the bytes that [buf.getvalue()] returns. *)
Definition serialize_layers (layers : list loc) : M (list byte) :=
  for_each (reverse layers) backward_body (true, None);;
  m_BytesIO;;
  for_each layers (fun layer _ => m_serialize layer) tt;;
  res ← m_getvalue;
  mret res.

(** What the caller gets back. *)
Definition returned {A : Type} (x : state * result A) : result A := x.2.

(** The state the run leaves behind. *)
Definition final {A : Type} (x : state * result A) : state := x.1.

(** ** [main.py] *)

Definition hello_world : list byte := list_byte_of_string "Hello World".

Definition IPPROTO_UDP : Z := 17.

(** A store with three instances, at the references 0, 1 and 2. *)
Definition store3 (x y z : obj) : loc -> obj := fun r =>
  match r with
  | O => x
  | S O => y
  | _ => z
  end.

(** The script up to the call of the composer: the instances [ipv4],
    [udp] and the payload are the objects of a fresh store. *)
Definition main_pkt : result (list byte) :=
  rbind (IPv4Layer.__init__ IPPROTO_UDP "192.168.0.55" "192.168.0.100"
           {[ "flags" := IPV4_DONT_FRAGMENT ]}) (fun ipv4 =>
  rbind (UDPLayer.__init__ 5995 9559 ∅) (fun udp =>
  rbind (Payload.__init__ hello_world) (fun pay =>
  returned (serialize_layers [0%nat; 1%nat; 2%nat]
              (mkstate (store3 (IPv4 ipv4) (UDP udp) (Pay pay)) [] []))))).

(** The three instances as the constructors leave them, and the state in
    which the composer is called. *)
Definition main_ipv4 : IPv4Layer.t :=
  IPv4Layer.mk 69 0 0 0 2 0 16384 64 17 0
    [xc0; xa8; x00; x37] [xc0; xa8; x00; x64].

Definition main_udp : UDPLayer.t := UDPLayer.mk 5995 9559 0 0.

Definition main_payload : Payload.t := Payload.mk hello_world.

Definition main_state : state :=
  mkstate (store3 (IPv4 main_ipv4) (UDP main_udp) (Pay main_payload)) [] [].

(** The 39 bytes of the packet. *)
Definition main_out : list byte :=
  [x45; x00; x00; x27; x00; x00; x40; x00; x40; x11; x00; x00;
   xc0; xa8; x00; x37; xc0; xa8; x00; x64;
   x17; x6b; x25; x57; x00; x13; x00; x00] ++ hello_world.

(** A payload one byte too long for an IPv4 packet: 28 + 65508 = 65536. *)
Definition big_payload : Payload.t :=
  Payload.mk (replicate (N.to_nat 65508) x00).

Definition big_state : state :=
  mkstate (store3 (IPv4 main_ipv4) (UDP main_udp) (Pay big_payload)) [] [].

(** The instances of [main.py] constructed with the options
    [total_length=1234] and [length=77] as well. *)
Definition preset_ipv4 : IPv4Layer.t :=
  IPv4Layer.mk 69 0 1234 0 2 0 16384 64 17 0
    [xc0; xa8; x00; x37] [xc0; xa8; x00; x64].

Definition preset_udp : UDPLayer.t := UDPLayer.mk 5995 9559 77 0.

Definition preset_state : state :=
  mkstate (store3 (IPv4 preset_ipv4) (UDP preset_udp) (Pay main_payload))
    [] [].

(** The instance built from the addresses ["010.0.0.1"] and ["127.1"],
    the state in which it is composed with the UDP header and the payload
    of [main.py], and the packet returned. *)
Definition octal_ipv4 : IPv4Layer.t :=
  IPv4Layer.mk 69 0 0 0 0 0 0 64 17 0
    [x08; x00; x00; x01] [x7f; x00; x00; x01].

Definition octal_state : state :=
  mkstate (store3 (IPv4 octal_ipv4) (UDP main_udp) (Pay main_payload)) [] [].

Definition octal_out : list byte :=
  [x45; x00; x00; x27; x00; x00; x00; x00; x40; x11; x00; x00;
   x08; x00; x00; x01; x7f; x00; x00; x01;
   x17; x6b; x25; x57; x00; x13; x00; x00] ++ hello_world.

(** A payload one byte too long for a UDP datagram: 8 + 65528 = 65536;
    the store holds the payload of [main.py], the UDP header of [main.py]
    and this payload. *)
Definition udp_big_payload : Payload.t :=
  Payload.mk (replicate (N.to_nat 65528) x00).

Definition udp_big_state : state :=
  mkstate (store3 (Pay main_payload) (UDP main_udp) (Pay udp_big_payload))
    [] [].

(** ** Address strings *)







(** ** Reading a buffer back at the offsets of the wire format *)

Definition u8_at (b : list byte) (off : nat) : option Z :=
  Z_of_byte <$> b !! off.

Definition u16_at (b : list byte) (off : nat) : option Z :=
  hi ← b !! off;
  lo ← b !! S off;
  Some (Z.lor (Z.shiftl (Z_of_byte hi) 8) (Z_of_byte lo)).

Definition bytes_at (b : list byte) (off n : nat) : list byte :=
  take n (drop off b).

(** An instance of one of the two header classes. *)
Definition is_header (o : obj) : bool :=
  match o with
  | IPv4 _ | UDP _ => true
  | Pay _ => false
  end.

(** The 16-bit length field of a header instance. *)
Definition length_field (o : obj) : option Z :=
  match o with
  | IPv4 x => Some (IPv4Layer.total_length x)
  | UDP x => Some (UDPLayer.length x)
  | Pay _ => None
  end.

(** The decimal digits of a byte, without leading zeros. *)
Definition dec_of_byte (b : byte) : string :=
  NilZero.string_of_uint (N.to_uint (Byte.to_N b)).

(** The dotted-decimal text of a four-byte address, as a reader of the
    packet prints it. *)
Definition inet_ntoa (packed_ip : list byte) : option string :=
  match packed_ip with
  | [w; x; y; z] =>
      Some (dec_of_byte w +:+ "." +:+ dec_of_byte x +:+ "." +:+
            dec_of_byte y +:+ "." +:+ dec_of_byte z)
  | _ => None
  end.

(** The number of bytes a layer appends when its [serialize] returns: the
    width of the format string for the two headers, the bytes object
    itself for a payload. *)
Definition wire_size (o : obj) : nat :=
  match o with
  | IPv4 _ => sum_list (fmt_size <$> fmt_ipv4)
  | UDP _ => sum_list (fmt_size <$> fmt_udp)
  | Pay x => length (Payload.payload x)
  end.

(** ** The two passes, in the words of the specification

    The backward pass starts from the innermost layer's own
    [get_total_length()], without [set_length] on it, and then, for every
    other layer walking backward, calls [set_length] with the running
    length and takes the layer's new [get_total_length()] as the running
    length.  The forward pass serializes the layers in their original
    order into one buffer. *)

Fixpoint spec_walk_backward (others : list loc) (current_payload_length : Z)
  : M Z :=
  match others with
  | [] => mret current_payload_length
  | layer :: rest =>
      m_set_length layer current_payload_length;;
      n ← m_get_total_length layer;
      spec_walk_backward rest n
  end.

Fixpoint spec_forward (layers : list loc) : M unit :=
  match layers with
  | [] => mret tt
  | layer :: rest => m_serialize layer;; spec_forward rest
  end.

Definition spec_two_pass (outer : list loc) (innermost : loc)
  : M (list byte) :=
  current_payload_length ← m_get_total_length innermost;
  spec_walk_backward (reverse outer) current_payload_length;;
  m_BytesIO;;
  spec_forward (outer ++ [innermost]);;
  m_getvalue.

(** * Properties *)

(** ** Evaluations *)

Example inet_aton_src : inet_aton "192.168.0.55" = inr [xc0; xa8; x00; x37].
Proof. reflexivity. Qed.

Example inet_aton_999 : inet_aton "999.1.1.1" = inl OSError.
Proof. reflexivity. Qed.

Example inet_aton_short : inet_aton "127.1" = inr [x7f; x00; x00; x01].
Proof. reflexivity. Qed.

Example inet_aton_hex : inet_aton "0x7f.0.0.010" = inr [x7f; x00; x00; x08].
Proof. reflexivity. Qed.

Example inet_aton_five : inet_aton "1.2.3.4.5" = inl OSError.
Proof. reflexivity. Qed.

Example main_ipv4_init :
  IPv4Layer.__init__ IPPROTO_UDP "192.168.0.55" "192.168.0.100"
    {[ "flags" := IPV4_DONT_FRAGMENT ]} = inr main_ipv4.
Proof. vm_compute. reflexivity. Qed.

Example main_udp_init : UDPLayer.__init__ 5995 9559 ∅ = inr main_udp.
Proof. reflexivity. Qed.

Example main_pkt_bytes : main_pkt = inr main_out.
Proof. vm_compute. reflexivity. Qed.

Example main_run : returned (serialize_layers [0; 1; 2]%nat main_state) = inr main_out.
Proof. vm_compute. reflexivity. Qed.

(** ** Bytes and [struct.pack] *)

Lemma Z_of_byte_of_Z (z : Z) : 0 <= z < 256 -> Z_of_byte (byte_of_Z z) = z.
Proof.
  intros Hz. unfold Z_of_byte, byte_of_Z.
  destruct (Byte.of_N (Z.to_N z)) as [y|] eqn:E; simpl.
  - apply Byte.to_of_N in E. rewrite E. apply Z2N.id. lia.
  - apply Byte.of_N_None_iff in E. lia.
Qed.

Lemma u16_join (z : Z) (hi lo : byte) :
  0 <= z <= 65535 ->
  be16 z = [hi; lo] ->
  Z.lor (Z.shiftl (Z_of_byte hi) 8) (Z_of_byte lo) = z.
Proof.
  intros Hz [= <- <-].
  rewrite !Z_of_byte_of_Z.
  - change 255 with (Z.ones 8).
    rewrite <- Z.ldiff_ones_r by lia. apply Z.lor_ldiff_and.
  - change 255 with (Z.ones 8). rewrite Z.land_ones by lia.
    apply Z.mod_pos_bound. lia.
  - rewrite Z.shiftr_div_pow2 by lia. change (2 ^ 8) with 256.
    split; [apply Z.div_pos; lia | apply Z.div_lt_upper_bound; lia].
Qed.

Lemma rbind_inr {A B : Type} (r : result A) (k : A -> result B) (y : B) :
  rbind r k = inr y -> exists x, r = inr x /\ k x = inr y.
Proof. destruct r as [e|x]; simpl; [congruence | eauto]. Qed.

Lemma pack_item_FB (z : Z) (bs : list byte) :
  pack_item FB (PyInt z) = inr bs -> 0 <= z <= 255 /\ bs = [byte_of_Z z].
Proof.
  simpl. destruct (0 <=? z) eqn:E1, (z <=? 255) eqn:E2; simpl; intros [= <-].
  split; [lia | reflexivity].
Qed.

Lemma pack_item_FH (z : Z) (bs : list byte) :
  pack_item FH (PyInt z) = inr bs -> 0 <= z <= 65535 /\ bs = be16 z.
Proof.
  simpl. destruct (0 <=? z) eqn:E1, (z <=? 65535) eqn:E2; simpl; intros [= <-].
  split; [lia | reflexivity].
Qed.

Lemma pack_item_Fs (n : nat) (b bs : list byte) :
  pack_item (Fs n) (PyBytes b) = inr bs -> bs = pad_to n b.
Proof. cbn. congruence. Qed.

Lemma pack_item_FH_overflow (z : Z) :
  ~ 0 <= z <= 65535 -> pack_item FH (PyInt z) = inl StructError.
Proof.
  intros Hz. simpl.
  destruct (0 <=? z) eqn:E1, (z <=? 65535) eqn:E2; simpl; try reflexivity.
  lia.
Qed.

Lemma pack_cons (f : fmt) (fs : list fmt) (v : pyval) (vs : list pyval)
    (bs : list byte) :
  pack (f :: fs) (v :: vs) = inr bs ->
  exists b bs', pack_item f v = inr b /\ pack fs vs = inr bs' /\ bs = b ++ bs'.
Proof.
  cbn [pack]. intros H.
  apply rbind_inr in H as (b & Hb & H).
  apply rbind_inr in H as (bs' & Hbs & [= <-]). eauto.
Qed.

Lemma pack_nil (bs : list byte) : pack [] [] = inr bs -> bs = [].
Proof. cbn. congruence. Qed.

(** [struct.pack] raises nothing but [struct.error]. *)
Lemma pack_raises (fs : list fmt) (vs : list pyval) (e : exn) :
  pack fs vs = inl e -> e = StructError.
Proof.
  revert vs. induction fs as [|f fs IH]; intros [|v vs]; simpl;
    try congruence.
  destruct (pack_item f v) as [e'|b] eqn:E; simpl.
  - intros [= <-]. destruct f, v; simpl in E;
      repeat match type of E with
             | context [if ?c then _ else _] => destruct c
             end; congruence.
  - destruct (pack fs vs) as [e'|bs] eqn:E'; simpl; [|congruence].
    intros [= <-]. eauto.
Qed.

Lemma pad_to_length (n : nat) (b : list byte) : length (pad_to n b) = n.
Proof.
  unfold pad_to. rewrite length_take, length_app, length_replicate. lia.
Qed.

Lemma pad_to_id (n : nat) (b : list byte) : length b = n -> pad_to n b = b.
Proof.
  intros <-. unfold pad_to. rewrite take_app_length. reflexivity.
Qed.

Lemma pack_item_length (f : fmt) (v : pyval) (bs : list byte) :
  pack_item f v = inr bs -> length bs = fmt_size f.
Proof.
  destruct f, v; simpl;
    repeat match goal with
           | |- context [if ?c then _ else _] => destruct c
           end; try congruence; intros [= <-]; try reflexivity.
  apply pad_to_length.
Qed.

Lemma pack_length (fs : list fmt) (vs : list pyval) (bs : list byte) :
  pack fs vs = inr bs -> length bs = sum_list (fmt_size <$> fs).
Proof.
  revert vs bs. induction fs as [|f fs IH]; intros [|v vs] bs; simpl;
    try congruence.
  - intros [= <-]. reflexivity.
  - destruct (pack_item f v) as [e'|b] eqn:E; simpl; [congruence|].
    destruct (pack fs vs) as [e'|bs'] eqn:E'; simpl; [congruence|].
    intros [= <-]. rewrite length_app.
    erewrite pack_item_length, IH by eassumption. reflexivity.
Qed.

(** Inversion of a successful [struct.pack], one item at a time. *)
Ltac pack_inv H :=
  repeat
    (let b := fresh "b" in
     let Hb := fresh "Hb" in
     let Hr := fresh "Hr" in
     apply pack_cons in H as (b & ? & Hb & H & ->);
     first [ apply pack_item_FB in Hb as (Hr & ->)
           | apply pack_item_FH in Hb as (Hr & ->)
           | apply pack_item_Fs in Hb as -> ]);
  apply pack_nil in H as ->.

(** ** What [serialize] appends *)

Lemma ipv4_serialize_inr (self : IPv4Layer.t) (buf out : BytesIO) :
  IPv4Layer.serialize self buf = inr out ->
  0 <= IPv4Layer.total_length self <= 65535 /\
  0 <= IPv4Layer.protocol self <= 255 /\
  out = buf ++
        [byte_of_Z (IPv4Layer.verihl self); byte_of_Z (IPv4Layer.dscp_ecn self)]
        ++ be16 (IPv4Layer.total_length self)
        ++ be16 (IPv4Layer.id self)
        ++ be16 (IPv4Layer.flags_fragment_offset self)
        ++ [byte_of_Z (IPv4Layer.ttl self); byte_of_Z (IPv4Layer.protocol self)]
        ++ be16 (IPv4Layer.checksum self)
        ++ pad_to 4 (IPv4Layer.src_ip self) ++ pad_to 4 (IPv4Layer.dst_ip self).
Proof.
  unfold IPv4Layer.serialize, fmt_ipv4. intros H.
  apply rbind_inr in H as (bs & H & [= <-]).
  pack_inv H. repeat split; try lia. unfold BytesIO_write.
  rewrite app_nil_r. reflexivity.
Qed.

Lemma udp_serialize_inr (self : UDPLayer.t) (buf out : BytesIO) :
  UDPLayer.serialize self buf = inr out ->
  0 <= UDPLayer.src_port self <= 65535 /\
  0 <= UDPLayer.dst_port self <= 65535 /\
  0 <= UDPLayer.length self <= 65535 /\
  out = buf ++ be16 (UDPLayer.src_port self) ++ be16 (UDPLayer.dst_port self)
            ++ be16 (UDPLayer.length self) ++ be16 (UDPLayer.checksum self).
Proof.
  unfold UDPLayer.serialize, fmt_udp. intros H.
  apply rbind_inr in H as (bs & H & [= <-]).
  pack_inv H. repeat split; try lia.
Qed.

(** Whether [serialize] returns, and what it appends, depends on the
    instance only, not on the buffer. *)
Lemma serialize_append (o : obj) (buf : BytesIO) :
  match serialize o buf with
  | inl e => e = StructError /\ forall buf', serialize o buf' = inl e
  | inr out =>
      exists bs, out = buf ++ bs /\ length bs = wire_size o /\
                 forall buf', serialize o buf' = inr (buf' ++ bs)
  end.
Proof.
  destruct o as [x|x|x]; cbn [serialize obj_Layer IPv4Layer_Layer
    UDPLayer_Layer Payload_Layer wire_size].
  - unfold IPv4Layer.serialize.
    destruct (pack fmt_ipv4 _) as [e|bs] eqn:E; cbn [rbind].
    + split; [eapply pack_raises; eassumption | reflexivity].
    + exists bs. split; [reflexivity|].
      split; [eapply pack_length; eassumption | reflexivity].
  - unfold UDPLayer.serialize.
    destruct (pack fmt_udp _) as [e|bs] eqn:E; cbn [rbind].
    + split; [eapply pack_raises; eassumption | reflexivity].
    + exists bs. split; [reflexivity|].
      split; [eapply pack_length; eassumption | reflexivity].
  - exists (Payload.payload x). unfold Payload.serialize, BytesIO_write. auto.
Qed.

Lemma ipv4_serialize_overflow (self : IPv4Layer.t) (buf : BytesIO) :
  ~ 0 <= IPv4Layer.total_length self <= 65535 ->
  IPv4Layer.serialize self buf = inl StructError.
Proof.
  intros Hz. destruct (IPv4Layer.serialize self buf) as [e|out] eqn:E.
  - unfold IPv4Layer.serialize in E.
    destruct (pack fmt_ipv4 _) as [e'|bs] eqn:E'; [|discriminate].
    injection E as <-. f_equal. eapply pack_raises. eassumption.
  - apply ipv4_serialize_inr in E as (H & _). contradiction.
Qed.

Lemma udp_serialize_overflow (self : UDPLayer.t) (buf : BytesIO) :
  ~ (0 <= UDPLayer.src_port self <= 65535 /\
     0 <= UDPLayer.dst_port self <= 65535 /\
     0 <= UDPLayer.length self <= 65535) ->
  UDPLayer.serialize self buf = inl StructError.
Proof.
  intros Hz. destruct (UDPLayer.serialize self buf) as [e|out] eqn:E.
  - unfold UDPLayer.serialize in E.
    destruct (pack fmt_udp _) as [e'|bs] eqn:E'; [|discriminate].
    injection E as <-. f_equal. eapply pack_raises. eassumption.
  - apply udp_serialize_inr in E as (H1 & H2 & H3 & _). tauto.
Qed.

(** C9.  Calling [serialize] twice in succession on the same instance
    has the same outcome both times, leaves the instances as they were, and
    appends the same bytes [bs] to the buffer both times (nothing at all
    when the call raises). *)
Theorem serialize_twice (s : state) (layer : loc) :
  returned (m_serialize layer (final (m_serialize layer s))) =
  returned (m_serialize layer s) /\
  heap (final (m_serialize layer (final (m_serialize layer s)))) = heap s /\
  exists bs : list byte,
    buf (final (m_serialize layer s)) = buf s ++ bs /\
    buf (final (m_serialize layer (final (m_serialize layer s)))) =
    (buf s ++ bs) ++ bs.
Proof.
  unfold m_serialize, returned, final. cbn [log heap buf calls].
  pose proof (serialize_append (heap s layer) (buf s)) as H.
  destruct (serialize (heap s layer) (buf s)) as [e|out].
  - destruct H as (_ & H). cbn [fst snd heap buf calls]. rewrite H.
    cbn [fst snd heap buf calls].
    split; [reflexivity|]. split; [reflexivity|].
    exists []. rewrite !app_nil_r. auto.
  - destruct H as (bs & -> & _ & H). cbn [fst snd heap buf calls]. rewrite H.
    cbn [fst snd heap buf calls].
    split; [reflexivity|]. split; [reflexivity|].
    exists bs. auto.
Qed.

(** ** [inet_aton] *)

Lemma be_bytes_length (n : nat) (val : N) : length (be_bytes n val) = n.
Proof.
  revert val. induction n as [|n IH]; intros val; [reflexivity|].
  cbn [be_bytes]. rewrite length_app, IH. cbn. lia.
Qed.

Lemma inet_aton_last_length (pp : list byte) (val : N) (rest : string)
    (b : list byte) :
  (length pp <= 3)%nat -> inet_aton_last pp val rest = Some b ->
  length b = 4%nat.
Proof.
  intros Hpp. unfold inet_aton_last.
  destruct (negb _); [discriminate|].
  destruct (_ <=? _)%N; [discriminate|].
  intros [= <-]. rewrite length_app, be_bytes_length. lia.
Qed.

Lemma inet_aton_loop_length (fuel : nat) (pp : list byte) (s : string)
    (b : list byte) :
  (length pp <= 3)%nat -> inet_aton_loop fuel pp s = Some b ->
  length b = 4%nat.
Proof.
  revert pp s. induction fuel as [|fuel IH]; intros pp s Hpp; [discriminate|].
  cbn [inet_aton_loop].
  destruct s as [|c s']; [discriminate|].
  destruct (isdigit c); [|discriminate].
  destruct (strtoul0 (String c s')) as [val rest].
  destruct (4294967295 <? val)%N; [discriminate|].
  destruct rest as [|c' rest']; [apply inet_aton_last_length; assumption|].
  destruct (code c' =? 46)%N; [|apply inet_aton_last_length; assumption].
  destruct (2 <? length pp)%nat eqn:E; [discriminate|].
  destruct (255 <? val)%N; [discriminate|]. cbn [orb].
  apply IH. rewrite length_app. cbn.
  apply Nat.ltb_ge in E. lia.
Qed.

Lemma inet_aton_length (ip_string : string) (b : list byte) :
  inet_aton ip_string = inr b -> length b = 4%nat.
Proof.
  unfold inet_aton. destruct (has_nul ip_string); [discriminate|].
  destruct (inet_aton_loop _ [] ip_string) as [b'|] eqn:E; [|discriminate].
  intros [= <-]. eapply inet_aton_loop_length; [|eassumption]. cbn. lia.
Qed.

Lemma has_nul_dec (b : byte) (rest : string) :
  has_nul (dec_of_byte b +:+ rest) = has_nul rest.
Proof. destruct b; reflexivity. Qed.

(** One iteration of the loop. *)
Lemma inet_aton_loop_S (fuel : nat) (pp : list byte) (s : string) :
  inet_aton_loop (S fuel) pp s =
  match s with
  | String c _ =>
      if isdigit c then
        let '(val, rest) := strtoul0 s in
        if (4294967295 <? val)%N then None
        else
          match rest with
          | String c' rest' =>
              if (code c' =? 46)%N then
                if (2 <? length pp)%nat || (255 <? val)%N then None
                else inet_aton_loop fuel
                       (pp ++ [default x00 (Byte.of_N val)]) rest'
              else inet_aton_last pp val rest
          | EmptyString => inet_aton_last pp val rest
          end
      else None
  | EmptyString => None
  end.
Proof. reflexivity. Qed.

Lemma loop_part (b : byte) (fuel : nat) (pp : list byte) (rest : string) :
  inet_aton_loop (S fuel) pp (dec_of_byte b +:+ String "." rest) =
  if (2 <? length pp)%nat then None
  else inet_aton_loop fuel (pp ++ [b]) rest.
Proof.
  rewrite inet_aton_loop_S.
  destruct rest as [|c rest]; destruct b;
    cbv - [inet_aton_loop Nat.ltb length app];
    destruct (2 <? length pp)%nat; reflexivity.
Qed.

Lemma loop_last (b w x y : byte) (fuel : nat) :
  inet_aton_loop (S fuel) [w; x; y] (dec_of_byte b) = Some [w; x; y; b].
Proof.
  rewrite inet_aton_loop_S. destruct b; reflexivity.
Qed.

Lemma string_length_app (s1 s2 : string) :
  String.length (s1 +:+ s2) = (String.length s1 + String.length s2)%nat.
Proof.
  induction s1 as [|c s1 IH]; simpl; [reflexivity | f_equal; exact IH].
Qed.

Lemma has_nul_dec_last (b : byte) : has_nul (dec_of_byte b) = false.
Proof. destruct b; reflexivity. Qed.

Lemma loop_dotted (w x y z : byte) (k : nat) :
  inet_aton_loop (4 + k) []
    (dec_of_byte w +:+ String "."
       (dec_of_byte x +:+ String "."
          (dec_of_byte y +:+ String "." (dec_of_byte z)))) =
  Some [w; x; y; z].
Proof.
  cbn [Nat.add]. rewrite !loop_part. cbn [length app Nat.ltb Nat.leb].
  apply loop_last.
Qed.

(** Parsing the dotted-decimal text of an address gives the address. *)
Lemma inet_aton_ntoa (packed_ip : list byte) (s : string) :
  inet_ntoa packed_ip = Some s -> inet_aton s = inr packed_ip.
Proof.
  destruct packed_ip as [|w [|x [|y [|z [|]]]]]; try discriminate.
  intros [= <-]. unfold inet_aton.
  change (dec_of_byte w +:+ "." +:+ dec_of_byte x +:+ "." +:+
          dec_of_byte y +:+ "." +:+ dec_of_byte z)
    with (dec_of_byte w +:+ String "."
            (dec_of_byte x +:+ String "."
               (dec_of_byte y +:+ String "." (dec_of_byte z)))).
  set (s := dec_of_byte w +:+ _).
  assert (Hnul : has_nul s = false).
  { unfold s. rewrite has_nul_dec. cbn [has_nul]. rewrite has_nul_dec.
    cbn [has_nul]. rewrite has_nul_dec. cbn [has_nul].
    rewrite has_nul_dec_last. reflexivity. }
  assert (Hlen : exists k, S (String.length s) = (4 + k)%nat).
  { exists (String.length s - 3)%nat. unfold s.
    rewrite !string_length_app. cbn [String.length].
    rewrite !string_length_app. cbn [String.length].
    rewrite !string_length_app. cbn [String.length]. lia. }
  destruct Hlen as (k & ->). rewrite Hnul. unfold s. rewrite loop_dotted.
  reflexivity.
Qed.

(** [inet_aton] raises nothing but [OSError] and [ValueError]. *)
Lemma inet_aton_raises (ip_string : string) (e : exn) :
  inet_aton ip_string = inl e -> e = OSError \/ e = ValueError.
Proof.
  unfold inet_aton. destruct (has_nul ip_string); [intros [= <-]; auto|].
  destruct (inet_aton_loop _ [] ip_string); [discriminate|].
  intros [= <-]. auto.
Qed.

(** ** Address strings the parser refuses, and some it accepts *)

































(** ** The constructors *)

(** C7, as stated, fails: the constructor accepts the port 70000. *)
Lemma udp_init_port_70000 :
  UDPLayer.__init__ 70000 53 ∅ = inr (UDPLayer.mk 70000 53 0 0) /\
  UDPLayer.__init__ 70000 53 ∅ <> inl FieldOverflowError.
Proof. split; [reflexivity | discriminate]. Qed.

(** C7, amended.  Constructing a [UDPLayer] with a source or destination
    port that does not fit in 16 bits returns an instance holding the ports
    as given; the port is rejected only by [serialize], where [struct.pack]
    raises [struct.error], whatever length the composer has set. *)
Theorem udp_port_checked_by_pack (src_port dst_port : Z)
    (opts : gmap string Z) :
  ~ (0 <= src_port <= 65535 /\ 0 <= dst_port <= 65535) ->
  exists udp : UDPLayer.t,
    UDPLayer.__init__ src_port dst_port opts = inr udp /\
    UDPLayer.src_port udp = src_port /\
    UDPLayer.dst_port udp = dst_port /\
    forall buf : BytesIO,
      UDPLayer.serialize udp buf = inl StructError /\
      forall n : Z,
        UDPLayer.serialize (UDPLayer.set_length udp n) buf = inl StructError.
Proof.
  intros Hp. eexists. split; [reflexivity|]. cbn.
  split; [reflexivity|]. split; [reflexivity|].
  intros buf. split; [|intros n]; apply udp_serialize_overflow; cbn; tauto.
Qed.

Lemma udp_port_checked_by_pack_70000 :
  exists udp : UDPLayer.t,
    UDPLayer.__init__ 70000 53 ∅ = inr udp /\
    UDPLayer.src_port udp = 70000 /\
    UDPLayer.dst_port udp = 53 /\
    forall buf : BytesIO,
      UDPLayer.serialize udp buf = inl StructError /\
      forall n : Z,
        UDPLayer.serialize (UDPLayer.set_length udp n) buf = inl StructError.
Proof.
  apply (udp_port_checked_by_pack 70000 53 ∅). lia.
Defined.




(** ** The source's loops and the specification's passes *)

Lemma backward_rest (others : list loc) (n : Z) (s : state) :
  for_each others backward_body (false, Some n) s =
  match spec_walk_backward others n s with
  | (s', inl e) => (s', inl e)
  | (s', inr n') => (s', inr (false, Some n'))
  end.
Proof.
  revert n s. induction others as [|layer rest IH]; intros n s.
  - reflexivity.
  - cbn [for_each spec_walk_backward]. unfold mbind, M_bind.
    unfold backward_body at 1. cbn [read_local]. unfold mbind, M_bind, mret, M_ret.
    destruct (m_set_length layer n s) as [s1 [e|[]]]; [reflexivity|].
    destruct (m_get_total_length layer s1) as [s2 [e|n']]; [reflexivity|].
    apply IH.
Qed.

Lemma forward_loop (layers : list loc) (s : state) :
  for_each layers (fun layer _ => m_serialize layer) tt s =
  spec_forward layers s.
Proof.
  revert s. induction layers as [|layer rest IH]; intros s.
  - reflexivity.
  - cbn [for_each spec_forward]. unfold mbind, M_bind.
    destruct (m_serialize layer s) as [s1 [e|[]]]; [reflexivity|]. apply IH.
Qed.

(** The backward pass returns: the local [curr_payload] is never read
    before its first assignment. *)
Lemma spec_walk_backward_returns (others : list loc) (n : Z) (s : state) :
  exists s' n', spec_walk_backward others n s = (s', inr n').
Proof.
  revert n s. induction others as [|layer rest IH]; intros n s.
  - cbn. eauto.
  - cbn [spec_walk_backward]. unfold mbind, M_bind. cbn. apply IH.
Qed.

(** C2.  For every non-empty layer sequence, written as the outer layers
    followed by the innermost one, [serialize_layers] is the two-pass
    algorithm of the specification: it reads the innermost layer's
    [get_total_length()] without calling [set_length] on it, then, walking
    the other layers from the innermost outward, calls [set_length] with
    the running length and replaces the running length by the layer's new
    [get_total_length()], and finally serializes the layers in their
    original order into one buffer.  Both sides make the same method calls
    in the same order, leave the same store and return the same bytes or
    raise the same exception. *)
Theorem serialize_layers_two_pass (outer : list loc) (innermost : loc)
    (s : state) :
  serialize_layers (outer ++ [innermost]) s = spec_two_pass outer innermost s.
Proof.
  unfold serialize_layers, spec_two_pass.
  rewrite reverse_app. change (reverse [innermost]) with [innermost].
  cbn [app for_each]. unfold mbind, M_bind.
  unfold backward_body at 1. unfold mbind, M_bind, mret, M_ret.
  destruct (m_get_total_length innermost s) as [s1 [e|n]]; [reflexivity|].
  rewrite backward_rest.
  destruct (spec_walk_backward (reverse outer) n s1) as [s2 [e|n']];
    [reflexivity|].
  destruct (m_BytesIO s2) as [s3 [e|[]]]; [reflexivity|].
  rewrite forward_loop.
  destruct (spec_forward (outer ++ [innermost]) s3) as [s4 [e|[]]];
    [reflexivity|].
  destruct (m_getvalue s4) as [s5 [e|res]]; reflexivity.
Qed.

(** The first loop returns on every sequence: [curr_payload] is assigned
    in the first iteration and only read in the later ones. *)
Lemma backward_returns (layers : list loc) (s : state) :
  exists s' locals,
    for_each layers backward_body (true, None) s = (s', inr locals).
Proof.
  destruct layers as [|layer rest]; [cbn; eauto|].
  cbn [for_each]. unfold mbind, M_bind.
  unfold backward_body at 1. unfold mbind, M_bind, mret, M_ret.
  cbn [m_get_total_length]. rewrite backward_rest.
  destruct (spec_walk_backward_returns rest
              (get_total_length (heap s layer))
              (log (Call_get_total_length layer) s)) as (s' & n' & ->).
  eauto.
Qed.

Lemma spec_forward_raises (layers : list loc) (s s' : state) (e : exn) :
  spec_forward layers s = (s', inl e) -> e = StructError.
Proof.
  revert s. induction layers as [|layer rest IH]; intros s; [discriminate|].
  cbn [spec_forward]. unfold mbind, M_bind, m_serialize.
  cbn [log heap buf calls].
  pose proof (serialize_append (heap s layer) (buf s)) as Happ.
  destruct (serialize (heap s layer) (buf s)) as [e'|b1].
  - destruct Happ as (-> & _). congruence.
  - apply IH.
Qed.

(** The composer raises nothing but [struct.error]. *)
Lemma serialize_layers_raises (layers : list loc) (s : state) (e : exn) :
  returned (serialize_layers layers s) = inl e -> e = StructError.
Proof.
  unfold serialize_layers, returned, mbind, M_bind.
  destruct (backward_returns (reverse layers) s) as (s1 & locals & ->).
  cbn [m_BytesIO]. rewrite forward_loop.
  destruct (spec_forward layers (mkstate (heap s1) [] (calls s1)))
    as [s2 [e'|[]]] eqn:E; cbn; [|discriminate].
  intros [= <-]. eapply spec_forward_raises. eassumption.
Qed.

(** C6, as stated, fails: with no layers the composer returns the empty
    bytes object. *)
Lemma no_layers_main :
  returned (serialize_layers [] main_state) = inr [] /\
  returned (serialize_layers [] main_state) <>
  inl EmptyLayerSequenceError.
Proof. split; [reflexivity | discriminate]. Qed.

(** C6, amended.  Invoked with zero layers, [serialize_layers] makes no
    method call, raises nothing and returns an empty buffer. *)
Theorem no_layers_empty_buffer (s : state) :
  serialize_layers [] s = (mkstate (heap s) [] (calls s), inr []).
Proof. reflexivity. Qed.

(** ** The length of the returned buffer *)

(** The forward pass leaves the instances alone and, when it returns, has
    appended the serialization of every layer. *)
Lemma spec_forward_heap (layers : list loc) (s : state) :
  heap (spec_forward layers s).1 = heap s.
Proof.
  revert s. induction layers as [|layer rest IH]; intros s; [reflexivity|].
  cbn [spec_forward]. unfold mbind, M_bind, m_serialize.
  cbn [log heap buf calls].
  destruct (serialize (heap s layer) (buf s)) as [e|b1]; [reflexivity|].
  rewrite IH. reflexivity.
Qed.

Lemma spec_forward_inr (layers : list loc) (s s' : state) :
  spec_forward layers s = (s', inr tt) ->
  length (buf s') =
  (length (buf s) + sum_list ((fun r => wire_size (heap s r)) <$> layers))%nat.
Proof.
  revert s. induction layers as [|layer rest IH]; intros s.
  - cbn. intros [= <-]. lia.
  - cbn [spec_forward]. unfold mbind, M_bind, m_serialize.
    cbn [log heap buf calls].
    pose proof (serialize_append (heap s layer) (buf s)) as Happ.
    destruct (serialize (heap s layer) (buf s)) as [e|b1]; [discriminate|].
    destruct Happ as (bs & -> & Hlen & _).
    intros H. apply IH in H. cbn [heap buf] in H.
    rewrite H, length_app, Hlen. cbn [fmap list_fmap sum_list]. 
    change (sum_list_with id) with sum_list. cbn. lia.
Qed.

(** C3, amended.  When [serialize_layers] returns, the length of the
    returned buffer is the sum, over the layers of the sequence, of the
    number of bytes the layer serializes to: 20 for an [IPv4Layer], 8 for a
    [UDPLayer], the length of its bytes for a [Payload]. *)
Theorem returned_length_is_sum_of_wire_sizes (layers : list loc) (s : state)
    (out : list byte) :
  returned (serialize_layers layers s) = inr out ->
  length out =
  sum_list ((fun r => wire_size (heap (final (serialize_layers layers s)) r))
              <$> layers).
Proof.
  unfold serialize_layers, returned, final, mbind, M_bind.
  destruct (for_each (reverse layers) backward_body (true, None) s)
    as [s1 [e|locals]]; [discriminate|].
  cbn [m_BytesIO]. rewrite forward_loop.
  pose proof (spec_forward_heap layers (mkstate (heap s1) [] (calls s1))) as Hh.
  destruct (spec_forward layers (mkstate (heap s1) [] (calls s1)))
    as [s2 [e|[]]] eqn:E; [discriminate|].
  cbn. intros [= <-]. apply spec_forward_inr in E. cbn in E, Hh.
  rewrite E, Hh. reflexivity.
Qed.

(** The packet of [main.py]: 20 + 8 + 11 bytes. *)
Lemma returned_length_is_sum_of_wire_sizes_main :
  length main_out =
  sum_list ((fun r => wire_size
                        (heap (final (serialize_layers [0; 1; 2]%nat
                                        main_state)) r))
              <$> [0; 1; 2]%nat).
Proof.
  apply (returned_length_is_sum_of_wire_sizes [0; 1; 2]%nat main_state main_out).
  vm_compute. reflexivity.
Defined.

(** C3, as stated, fails on the packet of [main.py]: 39 bytes are
    returned, and the three [get_total_length()] after composition are 39,
    19 and 11. *)
Lemma sum_of_total_lengths_main :
  let run := serialize_layers [0; 1; 2]%nat main_state in
  returned run = inr main_out /\
  Z.of_nat (length main_out) = 39 /\
  foldr Z.add 0 ((fun r => get_total_length (heap (final run) r))
                   <$> [0; 1; 2]%nat) = 69 /\
  Z.of_nat (length main_out) <>
  foldr Z.add 0 ((fun r => get_total_length (heap (final run) r))
                   <$> [0; 1; 2]%nat).
Proof.
  vm_compute. repeat split; discriminate.
Qed.

(** ** The IPv4/UDP/Payload stack *)

Ltac unfold_M :=
  unfold serialize_layers, for_each, backward_body, mbind, M_bind, mret, M_ret,
    m_get_total_length, m_set_length, m_serialize, m_BytesIO, m_getvalue,
    read_local, raise, log.

Section Stack3.
Variables (s : state) (a b c : loc).
Variables (ip : IPv4Layer.t) (udp : UDPLayer.t) (pay : Payload.t).
Hypothesis Ha : heap s a = IPv4 ip.
Hypothesis Hb : heap s b = UDP udp.
Hypothesis Hc : heap s c = Pay pay.

Let L : Z := Z.of_nat (length (Payload.payload pay)).
Let ip' : IPv4Layer.t := IPv4Layer.set_length ip (8 + L).
Let udp' : UDPLayer.t := UDPLayer.set_length udp L.
Let heap' : loc -> obj := <[a := IPv4 ip']> (<[b := UDP udp']> (heap s)).
Let calls' : list call :=
  calls s ++ [Call_get_total_length c; Call_set_length b L;
              Call_get_total_length b; Call_set_length a (8 + L);
              Call_get_total_length a].

Lemma stack3_distinct : a <> b /\ a <> c /\ b <> c.
Proof using Ha Hb Hc. repeat split; congruence. Qed.

Lemma stack3_heap' : heap' a = IPv4 ip' /\ heap' b = UDP udp' /\ heap' c = Pay pay.
Proof using Ha Hb Hc.
  destruct stack3_distinct as (Hab & Hac & Hbc). unfold heap'.
  repeat split.
  - apply fn_lookup_insert.
  - rewrite fn_lookup_insert_ne by done. apply fn_lookup_insert.
  - rewrite !fn_lookup_insert_ne by done. exact Hc.
Qed.

Lemma stack3_backward :
  for_each [c; b; a] backward_body (true, None) s =
  (mkstate heap' (buf s) calls', inr (false, Some (28 + L))).
Proof using Ha Hb Hc.
  destruct stack3_distinct as (Hab & Hac & Hbc).
  unfold_M. cbn. rewrite Hc. cbn.
  rewrite fn_lookup_insert, Hb, fn_lookup_insert.
  rewrite fn_lookup_insert_ne, Ha by done. cbn.
  unfold heap', calls', ip', udp', L, Payload.get_total_length.
  rewrite <- !app_assoc. cbn.
  rewrite (Z.add_assoc 20 8). reflexivity.
Qed.

Lemma stack3_run :
  serialize_layers [a; b; c] s =
  match IPv4Layer.serialize ip' [] with
  | inl e => (mkstate heap' [] (calls' ++ [Call_serialize a]), inl e)
  | inr b1 =>
      match UDPLayer.serialize udp' b1 with
      | inl e =>
          (mkstate heap' b1 (calls' ++ [Call_serialize a; Call_serialize b]),
           inl e)
      | inr b2 =>
          (mkstate heap' (b2 ++ Payload.payload pay)
             (calls' ++ [Call_serialize a; Call_serialize b; Call_serialize c]),
           inr (b2 ++ Payload.payload pay))
      end
  end.
Proof using Ha Hb Hc.
  destruct stack3_heap' as (Ha' & Hb' & Hc').
  unfold serialize_layers. change (reverse [a; b; c]) with [c; b; a].
  unfold mbind at 1, M_bind at 1. rewrite stack3_backward.
  unfold_M. cbn. rewrite Ha'. cbn.
  destruct (IPv4Layer.serialize ip' []) as [e|b1]; cbn.
  { reflexivity. }
  rewrite Hb'. cbn.
  destruct (UDPLayer.serialize udp' b1) as [e|b2]; cbn.
  { rewrite <- !app_assoc. reflexivity. }
  rewrite Hc'. cbn. rewrite <- !app_assoc. reflexivity.
Qed.
End Stack3.

Lemma pad_to_4 (b : list byte) : exists w x y z, pad_to 4 b = [w; x; y; z].
Proof.
  destruct b as [|w [|x [|y [|z b]]]]; cbn; eauto.
Qed.

(** The buffer an IPv4/UDP/Payload stack produces, field by field. *)
Lemma stack3_returned (s : state) (a b c : loc)
    (ip : IPv4Layer.t) (udp : UDPLayer.t) (pay : Payload.t) (out : list byte) :
  heap s a = IPv4 ip -> heap s b = UDP udp -> heap s c = Pay pay ->
  returned (serialize_layers [a; b; c] s) = inr out ->
  let L := Z.of_nat (length (Payload.payload pay)) in
  0 <= 28 + L <= 65535 /\
  0 <= IPv4Layer.protocol ip <= 255 /\
  0 <= UDPLayer.src_port udp <= 65535 /\
  0 <= UDPLayer.dst_port udp <= 65535 /\
  out = [byte_of_Z (IPv4Layer.verihl ip); byte_of_Z (IPv4Layer.dscp_ecn ip)]
        ++ be16 (28 + L)
        ++ be16 (IPv4Layer.id ip)
        ++ be16 (IPv4Layer.flags_fragment_offset ip)
        ++ [byte_of_Z (IPv4Layer.ttl ip); byte_of_Z (IPv4Layer.protocol ip)]
        ++ be16 (IPv4Layer.checksum ip)
        ++ pad_to 4 (IPv4Layer.src_ip ip) ++ pad_to 4 (IPv4Layer.dst_ip ip)
        ++ be16 (UDPLayer.src_port udp) ++ be16 (UDPLayer.dst_port udp)
        ++ be16 (8 + L) ++ be16 (UDPLayer.checksum udp)
        ++ Payload.payload pay.
Proof.
  intros Ha Hb Hc. rewrite (stack3_run s a b c ip udp pay Ha Hb Hc).
  destruct (IPv4Layer.serialize _ []) as [e|b1] eqn:E1; [discriminate|].
  destruct (UDPLayer.serialize _ b1) as [e|b2] eqn:E2; [discriminate|].
  cbn [returned snd]. intros [= <-].
  apply ipv4_serialize_inr in E1 as (Htl & Hpr & ->).
  apply udp_serialize_inr in E2 as (Hsp & Hdp & Hlen & ->).
  cbn in Htl, Hpr, Hsp, Hdp, Hlen |- *.
  set (L := Z.of_nat (length (Payload.payload pay))) in *.
  replace (20 + (8 + L)) with (28 + L) in * by lia.
  repeat split; try lia.
  rewrite <- !app_assoc. reflexivity.
Qed.

(** C1.  After [serialize_layers(ipv4, udp, payload)] with a payload of
    [L] bytes, the UDP instance's [length] is [8 + L] and the IPv4
    instance's [total_length] is [28 + L]; when the call returns, the
    buffer has [28 + L] bytes, its bytes 2-3 (the IPv4 total length) read
    [28 + L], its bytes 24-25 (the UDP length) read [8 + L], and the
    payload bytes follow from byte 28.  With [L = 0] the two fields are 8
    and 28 and nothing follows the headers. *)
Theorem udp_ipv4_length_fields (s : state) (a b c : loc)
    (ip : IPv4Layer.t) (udp : UDPLayer.t) (pay : Payload.t) :
  heap s a = IPv4 ip -> heap s b = UDP udp -> heap s c = Pay pay ->
  let L := Z.of_nat (length (Payload.payload pay)) in
  let run := serialize_layers [a; b; c] s in
  (exists udp', heap (final run) b = UDP udp' /\ UDPLayer.length udp' = 8 + L) /\
  (exists ip', heap (final run) a = IPv4 ip' /\
               IPv4Layer.total_length ip' = 28 + L) /\
  forall out : list byte,
    returned run = inr out ->
    length out = (28 + length (Payload.payload pay))%nat /\
    u16_at out 2 = Some (28 + L) /\
    u16_at out 24 = Some (8 + L) /\
    drop 28 out = Payload.payload pay.
Proof.
  intros Ha Hb Hc L run.
  assert (Hfin : heap (final run) =
                 <[a := IPv4 (IPv4Layer.set_length ip (8 + L))]>
                   (<[b := UDP (UDPLayer.set_length udp L)]> (heap s))).
  { unfold run. rewrite (stack3_run s a b c ip udp pay Ha Hb Hc).
    destruct (IPv4Layer.serialize _ []) as [e|b1]; [reflexivity|].
    destruct (UDPLayer.serialize _ b1) as [e|b2]; reflexivity. }
  destruct (stack3_heap' s a b c ip udp pay Ha Hb Hc) as (Ha' & Hb' & _).
  fold L in Ha', Hb'. rewrite <- Hfin in Ha', Hb'.
  split; [|split].
  - eexists. split; [exact Hb' | reflexivity].
  - eexists. split; [exact Ha' | cbn; unfold L; lia].
  - intros out Hout.
    destruct (stack3_returned s a b c ip udp pay out Ha Hb Hc Hout)
      as (Htl & _ & _ & _ & ->).
    fold L in Htl |- *.
    destruct (pad_to_4 (IPv4Layer.src_ip ip)) as (s1 & s2 & s3 & s4 & ->).
    destruct (pad_to_4 (IPv4Layer.dst_ip ip)) as (d1 & d2 & d3 & d4 & ->).
    split; [|split; [|split]].
    + cbn. lia.
    + cbn. f_equal. apply u16_join; [unfold L in *; lia | reflexivity].
    + cbn. f_equal. apply u16_join; [unfold L in *; lia | reflexivity].
    + reflexivity.
Qed.

(** The packet of [main.py]: 39 bytes, total length 39, UDP length 19, then
    the eleven bytes of the payload. *)
Lemma udp_ipv4_length_fields_main :
  let run := serialize_layers [0; 1; 2]%nat main_state in
  (exists udp', heap (final run) 1%nat = UDP udp' /\ UDPLayer.length udp' = 19) /\
  (exists ip', heap (final run) 0%nat = IPv4 ip' /\
               IPv4Layer.total_length ip' = 39) /\
  length main_out = 39%nat /\
  u16_at main_out 2 = Some 39 /\
  u16_at main_out 24 = Some 19 /\
  drop 28 main_out = hello_world.
Proof.
  destruct (udp_ipv4_length_fields main_state 0 1 2
              main_ipv4 main_udp main_payload eq_refl eq_refl eq_refl)
    as (H1 & H2 & H3).
  split; [exact H1|]. split; [exact H2|].
  apply H3. vm_compute. reflexivity.
Defined.

(** C4, amended.  When an IPv4/UDP/Payload composition built by the three
    constructors returns, reading the buffer at the offsets of the wire
    format gives back the constructor arguments: byte 9 is the protocol
    number, bytes 12-15 and 16-19 are the addresses that the source and
    destination strings denote, bytes 20-21 and 22-23 are the source and
    destination ports, and the bytes from 28 on are the payload.  The
    supplied address string itself is read back when it is the
    dotted-decimal text of an address: printing the four bytes then gives
    that string again. *)
Theorem stack_roundtrip (s : state) (a b c : loc)
    (protocol : Z) (src dst : string) (opts : gmap string Z)
    (sp dp : Z) (uopts : gmap string Z) (data : list byte)
    (ip : IPv4Layer.t) (udp : UDPLayer.t) (pay : Payload.t)
    (out : list byte) :
  IPv4Layer.__init__ protocol src dst opts = inr ip ->
  UDPLayer.__init__ sp dp uopts = inr udp ->
  Payload.__init__ data = inr pay ->
  heap s a = IPv4 ip -> heap s b = UDP udp -> heap s c = Pay pay ->
  returned (serialize_layers [a; b; c] s) = inr out ->
  u8_at out 9 = Some protocol /\
  inet_aton src = inr (bytes_at out 12 4) /\
  inet_aton dst = inr (bytes_at out 16 4) /\
  u16_at out 20 = Some sp /\
  u16_at out 22 = Some dp /\
  drop 28 out = data /\
  (forall q, inet_ntoa q = Some src ->
             inet_ntoa (bytes_at out 12 4) = Some src) /\
  (forall q, inet_ntoa q = Some dst ->
             inet_ntoa (bytes_at out 16 4) = Some dst).
Proof.
  intros Hip Hudp Hpay Ha Hb Hc Hout.
  cut (u8_at out 9 = Some protocol /\
       inet_aton src = inr (bytes_at out 12 4) /\
       inet_aton dst = inr (bytes_at out 16 4) /\
       u16_at out 20 = Some sp /\
       u16_at out 22 = Some dp /\
       drop 28 out = data).
  { intros (H1 & H2 & H3 & H4 & H5 & H6).
    repeat (split; [assumption|]).
    split; intros q Hq; pose proof (inet_aton_ntoa q _ Hq) as Hq';
      congruence. }
  destruct (stack3_returned s a b c ip udp pay out Ha Hb Hc Hout)
    as (_ & Hpr & Hsp & Hdp & ->).
  unfold IPv4Layer.__init__ in Hip.
  destruct (inet_aton src) as [e|x] eqn:Esrc; [discriminate|].
  destruct (inet_aton dst) as [e|y] eqn:Edst; [discriminate|].
  cbn [rbind] in Hip. injection Hip as <-.
  injection Hudp as <-. injection Hpay as <-.
  cbn [IPv4Layer.protocol IPv4Layer.src_ip IPv4Layer.dst_ip
       UDPLayer.src_port UDPLayer.dst_port Payload.payload] in *.
  apply inet_aton_length in Esrc, Edst.
  rewrite !pad_to_id by assumption.
  destruct x as [|x1 [|x2 [|x3 [|x4 [|]]]]]; try discriminate.
  destruct y as [|y1 [|y2 [|y3 [|y4 [|]]]]]; try discriminate.
  split; [|split; [|split; [|split; [|split]]]]; try reflexivity.
  - cbn. f_equal. apply Z_of_byte_of_Z. lia.
  - cbn. f_equal. apply u16_join; [lia | reflexivity].
  - cbn. f_equal. apply u16_join; [lia | reflexivity].
Qed.

Lemma stack_roundtrip_main :
  u8_at main_out 9 = Some 17 /\
  inet_aton "192.168.0.55" = inr (bytes_at main_out 12 4) /\
  inet_aton "192.168.0.100" = inr (bytes_at main_out 16 4) /\
  u16_at main_out 20 = Some 5995 /\
  u16_at main_out 22 = Some 9559 /\
  drop 28 main_out = hello_world /\
  inet_ntoa (bytes_at main_out 12 4) = Some "192.168.0.55"%string /\
  inet_ntoa (bytes_at main_out 16 4) = Some "192.168.0.100"%string.
Proof.
  cut (u8_at main_out 9 = Some 17 /\
       inet_aton "192.168.0.55" = inr (bytes_at main_out 12 4) /\
       inet_aton "192.168.0.100" = inr (bytes_at main_out 16 4) /\
       u16_at main_out 20 = Some 5995 /\
       u16_at main_out 22 = Some 9559 /\
       drop 28 main_out = hello_world /\
       (forall q, inet_ntoa q = Some "192.168.0.55"%string ->
                  inet_ntoa (bytes_at main_out 12 4) =
                  Some "192.168.0.55"%string) /\
       (forall q, inet_ntoa q = Some "192.168.0.100"%string ->
                  inet_ntoa (bytes_at main_out 16 4) =
                  Some "192.168.0.100"%string)).
  { intros (H1 & H2 & H3 & H4 & H5 & H6 & H7 & H8).
    repeat (split; [assumption|]).
    split.
    - apply (H7 [xc0; xa8; x00; x37]). reflexivity.
    - apply (H8 [xc0; xa8; x00; x64]). reflexivity. }
  apply (stack_roundtrip main_state 0 1 2 IPPROTO_UDP
           "192.168.0.55" "192.168.0.100" {[ "flags" := IPV4_DONT_FRAGMENT ]}
           5995 9559 ∅ hello_world main_ipv4 main_udp main_payload main_out).
  - vm_compute. reflexivity.
  - reflexivity.
  - reflexivity.
  - reflexivity.
  - reflexivity.
  - reflexivity.
  - vm_compute. reflexivity.
Defined.

(** C4, as stated, fails on address strings that are not the
    dotted-decimal text of an address: the composition with the source
    ["010.0.0.1"] and the destination ["127.1"] returns, and its bytes
    12-15 and 16-19 read 8.0.0.1 and 127.0.0.1. *)
Lemma roundtrip_noncanonical_address :
  IPv4Layer.__init__ IPPROTO_UDP "010.0.0.1" "127.1" ∅ = inr octal_ipv4 /\
  returned (serialize_layers [0; 1; 2]%nat octal_state) = inr octal_out /\
  inet_ntoa (bytes_at octal_out 12 4) = Some "8.0.0.1"%string /\
  inet_ntoa (bytes_at octal_out 16 4) = Some "127.0.0.1"%string /\
  inet_ntoa (bytes_at octal_out 12 4) <> Some "010.0.0.1"%string /\
  inet_ntoa (bytes_at octal_out 16 4) <> Some "127.1"%string.
Proof.
  repeat split; try (vm_compute; reflexivity); vm_compute; discriminate.
Qed.

(** C10.  Two IPv4/UDP/Payload compositions whose constructions differ
    only in the [total_length] option of the [IPv4Layer] and the [length]
    option of the [UDPLayer] return the same bytes, or raise the same
    exception. *)
Theorem output_independent_of_length_options (s1 s2 : state) (a b c : loc)
    (protocol : Z) (src dst : string) (o1 o2 : gmap string Z)
    (sp dp : Z) (u1 u2 : gmap string Z)
    (ip1 ip2 : IPv4Layer.t) (udp1 udp2 : UDPLayer.t) (pay : Payload.t) :
  delete "total_length" o1 = delete "total_length" o2 ->
  delete "length" u1 = delete "length" u2 ->
  IPv4Layer.__init__ protocol src dst o1 = inr ip1 ->
  IPv4Layer.__init__ protocol src dst o2 = inr ip2 ->
  UDPLayer.__init__ sp dp u1 = inr udp1 ->
  UDPLayer.__init__ sp dp u2 = inr udp2 ->
  heap s1 a = IPv4 ip1 -> heap s1 b = UDP udp1 -> heap s1 c = Pay pay ->
  heap s2 a = IPv4 ip2 -> heap s2 b = UDP udp2 -> heap s2 c = Pay pay ->
  returned (serialize_layers [a; b; c] s1) =
  returned (serialize_layers [a; b; c] s2).
Proof.
  intros Ho Hu Hi1 Hi2 Hu1 Hu2 Ha1 Hb1 Hc1 Ha2 Hb2 Hc2.
  assert (Hget : forall k d, k <> "total_length" ->
                             opts_get o1 k d = opts_get o2 k d).
  { intros k d Hk. unfold opts_get.
    rewrite <- (lookup_delete_ne o1 "total_length" k) by congruence.
    rewrite <- (lookup_delete_ne o2 "total_length" k) by congruence.
    rewrite Ho. reflexivity. }
  assert (Hgetu : opts_get u1 "checksum" 0 = opts_get u2 "checksum" 0).
  { unfold opts_get.
    rewrite <- (lookup_delete_ne u1 "length" "checksum") by discriminate.
    rewrite <- (lookup_delete_ne u2 "length" "checksum") by discriminate.
    rewrite Hu. reflexivity. }
  assert (Hip : forall n, IPv4Layer.set_length ip1 n = IPv4Layer.set_length ip2 n).
  { intros n. unfold IPv4Layer.__init__ in Hi1, Hi2.
    destruct (inet_aton src) as [e|x]; [discriminate|].
    destruct (inet_aton dst) as [e|y]; [discriminate|].
    cbn [rbind] in Hi1, Hi2. injection Hi1 as <-. injection Hi2 as <-.
    unfold IPv4Layer.set_length. cbn.
    rewrite !(Hget "id"), !(Hget "flags"), !(Hget "fragment_offset"),
      !(Hget "ttl"), !(Hget "checksum") by discriminate.
    reflexivity. }
  assert (Hudp : forall n, UDPLayer.set_length udp1 n = UDPLayer.set_length udp2 n).
  { intros n. injection Hu1 as <-. injection Hu2 as <-.
    unfold UDPLayer.set_length. cbn. rewrite Hgetu. reflexivity. }
  rewrite (stack3_run s1 a b c ip1 udp1 pay Ha1 Hb1 Hc1).
  rewrite (stack3_run s2 a b c ip2 udp2 pay Ha2 Hb2 Hc2).
  rewrite Hip, Hudp.
  destruct (IPv4Layer.serialize _ []) as [e|b1]; [reflexivity|].
  destruct (UDPLayer.serialize _ b1) as [e|b2]; reflexivity.
Qed.

Lemma output_independent_of_length_options_main :
  returned (serialize_layers [0; 1; 2]%nat preset_state) =
  returned (serialize_layers [0; 1; 2]%nat main_state).
Proof.
  apply (output_independent_of_length_options preset_state main_state 0 1 2
           IPPROTO_UDP "192.168.0.55" "192.168.0.100"
           (<["total_length" := 1234]> {[ "flags" := IPV4_DONT_FRAGMENT ]})
           {[ "flags" := IPV4_DONT_FRAGMENT ]}
           5995 9559 {[ "length" := 77 ]} ∅
           preset_ipv4 main_ipv4 preset_udp main_udp main_payload).
  - vm_compute. reflexivity.
  - vm_compute. reflexivity.
  - vm_compute. reflexivity.
  - vm_compute. reflexivity.
  - reflexivity.
  - reflexivity.
  - reflexivity.
  - reflexivity.
  - reflexivity.
  - reflexivity.
  - reflexivity.
  - reflexivity.
Defined.

(** * Further properties of the composer *)

(** ** The backward pass on the store *)

(** One step of the walk. *)
Lemma walk_cons (y : loc) (rest : list loc) (n : Z) (s : state) :
  spec_walk_backward (y :: rest) n s =
  spec_walk_backward rest (get_total_length (set_length (heap s y) n))
    (mkstate (<[y := set_length (heap s y) n]> (heap s)) (buf s)
       ((calls s ++ [Call_set_length y n]) ++ [Call_get_total_length y])).
Proof.
  cbn [spec_walk_backward]. unfold mbind, M_bind.
  cbn [m_set_length m_get_total_length log heap buf calls].
  rewrite fn_lookup_insert. reflexivity.
Qed.

(** [set_length] overwrites: an earlier [set_length] leaves no trace. *)
Lemma set_length_set_length (o : obj) (m n : Z) :
  set_length (set_length o m) n = set_length o n.
Proof. destruct o; reflexivity. Qed.

(** The walk touches the instances it is given and no other; it leaves the
    buffer alone. *)
Lemma walk_frame (others : list loc) (n : Z) (s : state) (r : loc) :
  ~ In r others ->
  heap (final (spec_walk_backward others n s)) r = heap s r.
Proof.
  revert n s. induction others as [|y rest IH]; intros n s Hr; [reflexivity|].
  rewrite walk_cons, IH by (cbn in Hr; tauto).
  cbn [heap]. apply fn_lookup_insert_ne. cbn in Hr. intros ->. tauto.
Qed.

Lemma walk_buf (others : list loc) (n : Z) (s : state) :
  buf (final (spec_walk_backward others n s)) = buf s.
Proof.
  revert n s. induction others as [|y rest IH]; intros n s; [reflexivity|].
  rewrite walk_cons, IH. reflexivity.
Qed.

(** Every instance is, after the walk, what it was or what a [set_length]
    makes of it. *)
Lemma walk_set_length (others : list loc) (n : Z) (s : state) (r : loc) :
  heap (final (spec_walk_backward others n s)) r = heap s r \/
  exists m, heap (final (spec_walk_backward others n s)) r
            = set_length (heap s r) m.
Proof.
  revert n s. induction others as [|y rest IH]; intros n s; [left; reflexivity|].
  rewrite walk_cons.
  destruct (IH (get_total_length (set_length (heap s y) n))
              (mkstate (<[y := set_length (heap s y) n]> (heap s)) (buf s)
                 ((calls s ++ [Call_set_length y n])
                  ++ [Call_get_total_length y]))) as [H|[m H]];
    rewrite H; cbn [heap].
  - destruct (decide (y = r)) as [->|Hne].
    + rewrite fn_lookup_insert. eauto.
    + rewrite fn_lookup_insert_ne by done. auto.
  - destruct (decide (y = r)) as [->|Hne].
    + rewrite fn_lookup_insert, set_length_set_length. eauto.
    + rewrite fn_lookup_insert_ne by done. eauto.
Qed.

(** The run, split into its two passes. *)
Lemma serialize_layers_passes (outer : list loc) (innermost : loc)
    (s : state) :
  serialize_layers (outer ++ [innermost]) s =
  let sb :=
    final (spec_walk_backward (reverse outer)
             (get_total_length (heap s innermost))
             (log (Call_get_total_length innermost) s)) in
  match spec_forward (outer ++ [innermost])
          (mkstate (heap sb) [] (calls sb)) with
  | (s', inl e) => (s', inl e)
  | (s', inr _) => (s', inr (buf s'))
  end.
Proof.
  unfold serialize_layers.
  rewrite reverse_app. change (reverse [innermost]) with [innermost].
  cbn [app for_each]. unfold mbind, M_bind.
  unfold backward_body at 1. unfold mbind, M_bind, mret, M_ret.
  cbn [m_get_total_length]. rewrite backward_rest.
  destruct (spec_walk_backward_returns (reverse outer)
              (get_total_length (heap s innermost))
              (log (Call_get_total_length innermost) s)) as (sb & n' & ->).
  cbn [m_BytesIO final fst]. rewrite forward_loop.
  destruct (spec_forward _ _) as [s4 [e|[]]]; reflexivity.
Qed.

Lemma serialize_layers_heap (outer : list loc) (innermost : loc) (s : state) :
  heap (final (serialize_layers (outer ++ [innermost]) s)) =
  heap (final (spec_walk_backward (reverse outer)
                 (get_total_length (heap s innermost))
                 (log (Call_get_total_length innermost) s))).
Proof.
  rewrite serialize_layers_passes. cbv zeta.
  match goal with
  | |- context [spec_forward ?l ?s0] =>
      pose proof (spec_forward_heap l s0) as H;
      destruct (spec_forward l s0) as [s4 [e|[]]]
  end; exact H.
Qed.

(** X1.  The composer leaves every instance that is not one of the outer
    layers as it was: the instances outside the sequence, and the innermost
    layer when it is not passed a second time.  An innermost header keeps
    the length its constructor was given. *)
Theorem serialize_layers_frame (outer : list loc) (innermost : loc)
    (s : state) (r : loc) :
  ~ In r outer ->
  heap (final (serialize_layers (outer ++ [innermost]) s)) r = heap s r.
Proof.
  intros Hr. rewrite serialize_layers_heap, walk_frame; [reflexivity|].
  rewrite <- list_elem_of_In, elem_of_reverse, list_elem_of_In. exact Hr.
Qed.

Lemma serialize_layers_frame_main :
  heap (final (serialize_layers ([0; 1] ++ [2])%nat main_state)) 2%nat =
  heap main_state 2%nat.
Proof.
  apply (serialize_layers_frame [0; 1]%nat 2%nat main_state 2%nat).
  simpl. lia.
Defined.

(** The composer changes an instance, if at all, by [set_length]. *)
Lemma serialize_layers_only_sets_lengths (layers : list loc) (s : state)
    (r : loc) :
  heap (final (serialize_layers layers s)) r = heap s r \/
  exists n : Z,
    heap (final (serialize_layers layers s)) r = set_length (heap s r) n.
Proof.
  destruct (decide (layers = [])) as [->|Hne]; [left; reflexivity|].
  destruct (exists_last Hne) as (outer & innermost & ->).
  rewrite serialize_layers_heap.
  destruct (walk_set_length (reverse outer)
              (get_total_length (heap s innermost))
              (log (Call_get_total_length innermost) s) r) as [H|[m H]];
    rewrite H; cbn [log heap]; eauto.
Qed.

Lemma is_header_set_length (o : obj) (n : Z) :
  is_header (set_length o n) = is_header o.
Proof. destruct o; reflexivity. Qed.

Lemma wire_size_set_length (o : obj) (n : Z) :
  wire_size (set_length o n) = wire_size o.
Proof. destruct o; reflexivity. Qed.

(** For a header, [set_length] stores the payload length and the total
    length is the header size more. *)
Lemma header_set_length (o : obj) (n : Z) :
  is_header o = true ->
  get_payload_length (set_length o n) = n /\
  get_total_length (set_length o n) = Z.of_nat (wire_size o) + n.
Proof.
  destruct o; [| |discriminate]; intros _; cbn;
    unfold IPv4Layer.get_payload_length, IPv4Layer.get_total_length,
      UDPLayer.get_payload_length, UDPLayer.get_total_length; cbn; lia.
Qed.

Lemma is_header_insert (h : loc -> obj) (y r : loc) (n : Z) :
  is_header ((<[y := set_length (h y) n]> h) r) = is_header (h r).
Proof.
  destruct (decide (y = r)) as [->|Hne].
  - rewrite fn_lookup_insert. apply is_header_set_length.
  - rewrite fn_lookup_insert_ne by done. reflexivity.
Qed.

Lemma wire_size_insert (h : loc -> obj) (y r : loc) (n : Z) :
  wire_size ((<[y := set_length (h y) n]> h) r) = wire_size (h r).
Proof.
  destruct (decide (y = r)) as [->|Hne].
  - rewrite fn_lookup_insert. apply wire_size_set_length.
  - rewrite fn_lookup_insert_ne by done. reflexivity.
Qed.

Lemma walk_adjacent (others : list loc) (prev : loc) (n : Z) (s : state)
    (p1 p2 : list loc) (x y : loc) :
  NoDup (prev :: others) ->
  get_total_length (heap s prev) = n ->
  prev :: others = p1 ++ x :: y :: p2 ->
  is_header (heap s y) = true ->
  get_payload_length (heap (final (spec_walk_backward others n s)) y) =
  get_total_length (heap (final (spec_walk_backward others n s)) x).
Proof.
  revert prev n s p1.
  induction others as [|y0 rest IH]; intros prev n s p1 Hnd Hn Heq Hy.
  { destruct p1 as [|? [|]]; discriminate. }
  rewrite walk_cons.
  apply NoDup_cons in Hnd as (Hprev & Hnd).
  pose proof Hnd as Hnd'. apply NoDup_cons in Hnd' as (Hy0 & _).
  rewrite list_elem_of_In in Hprev, Hy0.
  destruct p1 as [|p p1]; cbn [app] in Heq.
  - injection Heq as <- <- <-.
    rewrite !walk_frame by (cbn in Hprev; tauto). cbn [heap].
    rewrite fn_lookup_insert, fn_lookup_insert_ne
      by (intros ->; cbn in Hprev; tauto).
    rewrite Hn. apply header_set_length. exact Hy.
  - injection Heq as <- Heq.
    eapply IH; [exact Hnd| |exact Heq|].
    + cbn [heap]. rewrite fn_lookup_insert. reflexivity.
    + cbn [heap]. rewrite is_header_insert. exact Hy.
Qed.

(** X2.  After a composition in which no instance is passed twice, the
    payload length of every header layer is the total length of the layer
    that follows it in the sequence. *)
Theorem payload_length_is_next_total_length (l1 l2 : list loc) (r r' : loc)
    (s : state) :
  NoDup (l1 ++ r :: r' :: l2) ->
  is_header (heap s r) = true ->
  get_payload_length
    (heap (final (serialize_layers (l1 ++ r :: r' :: l2) s)) r) =
  get_total_length
    (heap (final (serialize_layers (l1 ++ r :: r' :: l2) s)) r').
Proof.
  intros Hnd Hr.
  assert (Hne : l1 ++ r :: r' :: l2 <> []) by (destruct l1; discriminate).
  destruct (exists_last Hne) as (outer & innermost & Heq).
  rewrite Heq, serialize_layers_heap.
  eapply (walk_adjacent _ innermost _ _ (reverse l2) (reverse l1)).
  - rewrite <- reverse_snoc, <- Heq, reverse_Permutation. exact Hnd.
  - reflexivity.
  - rewrite <- reverse_snoc, <- Heq.
    rewrite reverse_app, !reverse_cons, <- !app_assoc. reflexivity.
  - exact Hr.
Qed.

Lemma payload_length_is_next_total_length_main :
  get_payload_length
    (heap (final (serialize_layers ([] ++ [0; 1; 2])%nat main_state)) 0%nat) =
  get_total_length
    (heap (final (serialize_layers ([] ++ [0; 1; 2])%nat main_state)) 1%nat).
Proof.
  apply (payload_length_is_next_total_length [] [2%nat] 0%nat 1%nat main_state).
  - apply (bool_decide_unpack (NoDup [0; 1; 2]%nat)). vm_compute. exact I.
  - reflexivity.
Defined.

Lemma sum_list_with_fmap_wire (h : loc -> obj) (l : list loc) :
  sum_list ((fun r => wire_size (h r)) <$> l) =
  sum_list_with (fun r => wire_size (h r)) l.
Proof. induction l as [|x l IH]; cbn; [reflexivity | rewrite <- IH; reflexivity]. Qed.

Lemma sum_list_with_wire_ext (h1 h2 : loc -> obj) (l : list loc) :
  (forall r, wire_size (h1 r) = wire_size (h2 r)) ->
  sum_list_with (fun r => wire_size (h1 r)) l =
  sum_list_with (fun r => wire_size (h2 r)) l.
Proof.
  intros H. induction l as [|x l IH]; cbn; [reflexivity|].
  rewrite H, IH. reflexivity.
Qed.

(** Over headers the running length grows by the size of each header, and
    the last header walked holds it as its total length. *)
Lemma walk_total (others : list loc) (n : Z) (s : state) :
  Forall (fun r => is_header (heap s r) = true) others ->
  returned (spec_walk_backward others n s) =
  inr (n + Z.of_nat (sum_list_with (fun r => wire_size (heap s r)) others)) /\
  forall l, last others = Some l ->
    get_total_length (heap (final (spec_walk_backward others n s)) l) =
    n + Z.of_nat (sum_list_with (fun r => wire_size (heap s r)) others).
Proof.
  revert n s. induction others as [|y rest IH]; intros n s Hh.
  { split; [cbn; f_equal; lia | discriminate]. }
  apply Forall_cons in Hh as (Hy & Hrest).
  rewrite walk_cons.
  set (s1 := mkstate _ _ _).
  destruct (header_set_length (heap s y) n Hy) as (_ & Hn1). rewrite Hn1.
  destruct (IH (Z.of_nat (wire_size (heap s y)) + n) s1) as (IH1 & IH2).
  { eapply Forall_impl; [exact Hrest|]. intros r Hr. unfold s1. cbn [heap].
    rewrite is_header_insert. exact Hr. }
  assert (Hsum : sum_list_with (fun r => wire_size (heap s1 r)) rest =
                 sum_list_with (fun r => wire_size (heap s r)) rest).
  { apply sum_list_with_wire_ext. intros r. unfold s1. cbn [heap].
    apply wire_size_insert. }
  rewrite Hsum in IH1, IH2. cbn [sum_list_with].
  split.
  - rewrite IH1. f_equal. lia.
  - intros l Hl. destruct rest as [|y' rest'].
    + injection Hl as <-. unfold s1. cbn [spec_walk_backward].
      unfold mret, M_ret, final. cbn [fst heap].
      rewrite fn_lookup_insert, Hn1. cbn [sum_list_with]. lia.
    + rewrite last_cons_cons in Hl. rewrite (IH2 l Hl). lia.
Qed.

Lemma walk_wire_size (others : list loc) (n : Z) (s : state) (r : loc) :
  wire_size (heap (final (spec_walk_backward others n s)) r) =
  wire_size (heap s r).
Proof.
  destruct (walk_set_length others n s r) as [H|[m H]]; rewrite H;
    [reflexivity | apply wire_size_set_length].
Qed.

(** X3.  When the outer layers are headers and the innermost layer is a
    [Payload], the total length of the outermost layer after composition
    is the number of bytes returned. *)
Theorem outermost_total_length_is_buffer_length (outer : list loc)
    (innermost first : loc) (s : state) (out : list byte) :
  Forall (fun r => is_header (heap s r) = true) outer ->
  is_header (heap s innermost) = false ->
  head (outer ++ [innermost]) = Some first ->
  returned (serialize_layers (outer ++ [innermost]) s) = inr out ->
  get_total_length
    (heap (final (serialize_layers (outer ++ [innermost]) s)) first) =
  Z.of_nat (length out).
Proof.
  intros Hh Hin Hfirst Hout.
  rewrite serialize_layers_heap.
  rewrite serialize_layers_passes in Hout. cbv zeta in Hout.
  set (n0 := get_total_length (heap s innermost)) in *.
  set (s0 := log (Call_get_total_length innermost) s) in *.
  set (sb := final (spec_walk_backward (reverse outer) n0 s0)) in *.
  destruct (spec_forward (outer ++ [innermost])
              (mkstate (heap sb) [] (calls sb))) as [s4 [e|[]]] eqn:E;
    [discriminate|].
  cbn in Hout. injection Hout as <-.
  apply spec_forward_inr in E. cbn [buf heap length] in E.
  rewrite E, sum_list_with_fmap_wire.
  rewrite (sum_list_with_wire_ext (heap sb) (heap s))
    by (intros r; unfold sb; rewrite walk_wire_size; reflexivity).
  rewrite sum_list_with_app. cbn [sum_list_with].
  destruct (walk_total (reverse outer) n0 s0) as (_ & Hlast).
  { apply Forall_reverse. exact Hh. }
  rewrite sum_list_with_reverse in Hlast. cbn [s0 log heap] in Hlast.
  assert (Hn0 : n0 = Z.of_nat (wire_size (heap s innermost))).
  { unfold n0. destruct (heap s innermost); try discriminate. reflexivity. }
  destruct outer as [|o outer'].
  - injection Hfirst as <-.
    change (n0 = Z.of_nat (0 + (wire_size (heap s innermost) + 0))). lia.
  - injection Hfirst as <-.
    unfold sb. rewrite (Hlast o) by (rewrite last_reverse; reflexivity). lia.
Qed.

Lemma outermost_total_length_is_buffer_length_main :
  get_total_length
    (heap (final (serialize_layers ([0; 1] ++ [2])%nat main_state)) 0%nat) =
  Z.of_nat (length main_out).
Proof.
  apply (outermost_total_length_is_buffer_length [0; 1]%nat 2%nat 0%nat
           main_state main_out).
  - repeat constructor.
  - reflexivity.
  - reflexivity.
  - vm_compute. reflexivity.
Defined.

(** The walk does not see the length fields it overwrites: on two stores
    whose instances agree up to a [set_length], it returns the same running
    length and leaves the instances it walked equal. *)
Lemma walk_upto_lengths (others : list loc) (n : Z) (s1 s2 : state) :
  (forall r m, set_length (heap s1 r) m = set_length (heap s2 r) m) ->
  returned (spec_walk_backward others n s1) =
  returned (spec_walk_backward others n s2) /\
  forall r, In r others ->
    heap (final (spec_walk_backward others n s1)) r =
    heap (final (spec_walk_backward others n s2)) r.
Proof.
  revert n s1 s2. induction others as [|y rest IH]; intros n s1 s2 Hsim.
  { split; [reflexivity | intros r []]. }
  rewrite !walk_cons, (Hsim y n).
  set (v := set_length (heap s2 y) n).
  set (t1 := mkstate (<[y := v]> (heap s1)) _ _).
  set (t2 := mkstate (<[y := v]> (heap s2)) _ _).
  destruct (IH (get_total_length v) t1 t2) as (IH1 & IH2).
  { intros r m. unfold t1, t2. cbn [heap].
    destruct (decide (y = r)) as [->|Hne].
    - rewrite !fn_lookup_insert. reflexivity.
    - rewrite !fn_lookup_insert_ne by done. apply Hsim. }
  split; [exact IH1|].
  intros r [<-|Hr]; [|apply IH2; exact Hr].
  destruct (In_dec Nat.eq_dec y rest) as [Hy|Hy]; [apply IH2; exact Hy|].
  rewrite !walk_frame by exact Hy. unfold t1, t2. cbn [heap].
  rewrite !fn_lookup_insert. reflexivity.
Qed.

(** The forward pass reads the instances of the sequence and the buffer,
    nothing else. *)
Lemma spec_forward_ext (layers : list loc) (s1 s2 : state) :
  (forall r, In r layers -> heap s1 r = heap s2 r) ->
  buf s1 = buf s2 ->
  returned (spec_forward layers s1) = returned (spec_forward layers s2) /\
  buf (final (spec_forward layers s1)) = buf (final (spec_forward layers s2)).
Proof.
  revert s1 s2. induction layers as [|y rest IH]; intros s1 s2 Hh Hb.
  { split; [reflexivity | exact Hb]. }
  cbn [spec_forward]. unfold mbind, M_bind, m_serialize.
  cbn [log heap buf calls]. rewrite (Hh y) by (left; reflexivity). rewrite Hb.
  destruct (serialize (heap s2 y) (buf s2)) as [e|b1].
  - split; [reflexivity | cbn; exact Hb].
  - apply IH; [|reflexivity]. intros r Hr. cbn [heap]. apply Hh. right. exact Hr.
Qed.

(** X4.  Running the composer a second time on the same layers, with the
    innermost layer not among the outer ones, returns what the first run
    returned: the lengths stored by the first run are overwritten with the
    same values. *)
Theorem serialize_layers_again (outer : list loc) (innermost : loc)
    (s : state) :
  ~ In innermost outer ->
  returned (serialize_layers (outer ++ [innermost])
              (final (serialize_layers (outer ++ [innermost]) s))) =
  returned (serialize_layers (outer ++ [innermost]) s).
Proof.
  intros Hin.
  assert (Hin' : ~ In innermost (reverse outer)).
  { rewrite <- list_elem_of_In, elem_of_reverse, list_elem_of_In. exact Hin. }
  set (s' := final (serialize_layers (outer ++ [innermost]) s)).
  assert (Hs' : heap s' =
                heap (final (spec_walk_backward (reverse outer)
                               (get_total_length (heap s innermost))
                               (log (Call_get_total_length innermost) s))))
    by apply serialize_layers_heap.
  rewrite !serialize_layers_passes. cbv zeta.
  set (n0 := get_total_length (heap s innermost)) in *.
  set (s0 := log (Call_get_total_length innermost) s) in *.
  set (sb := final (spec_walk_backward (reverse outer) n0 s0)) in *.
  assert (Hn0 : get_total_length (heap s' innermost) = n0).
  { rewrite Hs'. unfold sb. rewrite walk_frame by exact Hin'. reflexivity. }
  rewrite Hn0.
  set (s0' := log (Call_get_total_length innermost) s').
  set (sb' := final (spec_walk_backward (reverse outer) n0 s0')).
  assert (Hsb : forall r, In r (outer ++ [innermost]) ->
                          heap sb' r = heap sb r).
  { assert (Hsim : forall r m, set_length (heap s0' r) m
                               = set_length (heap s0 r) m).
    { intros r m. unfold s0', s0. cbn [log heap]. rewrite Hs'. unfold sb.
      destruct (walk_set_length (reverse outer) n0 s0 r) as [H|[k H]];
        rewrite H; [reflexivity | apply set_length_set_length]. }
    destruct (walk_upto_lengths (reverse outer) n0 s0' s0 Hsim) as (_ & Hw).
    intros r Hr. apply in_app_or in Hr as [Hr|[<-|[]]].
    - apply Hw. rewrite <- list_elem_of_In, elem_of_reverse, list_elem_of_In.
      exact Hr.
    - unfold sb'. rewrite walk_frame by exact Hin'.
      unfold s0'. cbn [log heap]. rewrite Hs'. reflexivity. }
  destruct (spec_forward_ext (outer ++ [innermost])
              (mkstate (heap sb') [] (calls sb'))
              (mkstate (heap sb) [] (calls sb)) Hsb eq_refl) as (Hr & Hb).
  destruct (spec_forward (outer ++ [innermost])
              (mkstate (heap sb') [] (calls sb'))) as [t1 [e1|[]]];
    destruct (spec_forward (outer ++ [innermost])
                (mkstate (heap sb) [] (calls sb))) as [t2 [e2|[]]];
    cbn in Hr, Hb |- *; congruence.
Qed.

Lemma serialize_layers_again_main :
  returned (serialize_layers ([0; 1] ++ [2])%nat
              (final (serialize_layers ([0; 1] ++ [2])%nat main_state))) =
  returned (serialize_layers ([0; 1] ++ [2])%nat main_state).
Proof.
  apply (serialize_layers_again [0; 1]%nat 2%nat main_state).
  simpl. lia.
Defined.

(** The hypothesis is needed: with the same [UDPLayer] passed twice, the
    innermost layer is also an outer one, its [length] is overwritten, and
    a second run starts from another running length. *)
Example serialize_layers_again_aliased :
  returned (serialize_layers [1; 1]%nat main_state) =
  inr [x17; x6b; x25; x57; x00; x08; x00; x00;
       x17; x6b; x25; x57; x00; x08; x00; x00] /\
  returned (serialize_layers [1; 1]%nat
              (final (serialize_layers [1; 1]%nat main_state))) =
  inr [x17; x6b; x25; x57; x00; x10; x00; x00;
       x17; x6b; x25; x57; x00; x10; x00; x00].
Proof. split; vm_compute; reflexivity. Qed.

Lemma pack_item_FB_ok (z : Z) :
  0 <= z <= 255 -> pack_item FB (PyInt z) = inr [byte_of_Z z].
Proof.
  intros Hz. cbn. destruct (0 <=? z) eqn:E1, (z <=? 255) eqn:E2;
    try reflexivity; lia.
Qed.

Lemma pack_item_FH_ok (z : Z) :
  0 <= z <= 65535 -> pack_item FH (PyInt z) = inr (be16 z).
Proof.
  intros Hz. cbn. destruct (0 <=? z) eqn:E1, (z <=? 65535) eqn:E2;
    try reflexivity; lia.
Qed.

(** [IPv4Layer.serialize] returns exactly when the eight integers fit the
    widths of the format string. *)
Lemma ipv4_serialize_returns (self : IPv4Layer.t) (buf : BytesIO) :
  (exists out, IPv4Layer.serialize self buf = inr out) <->
  0 <= IPv4Layer.verihl self <= 255 /\
  0 <= IPv4Layer.dscp_ecn self <= 255 /\
  0 <= IPv4Layer.total_length self <= 65535 /\
  0 <= IPv4Layer.id self <= 65535 /\
  0 <= IPv4Layer.flags_fragment_offset self <= 65535 /\
  0 <= IPv4Layer.ttl self <= 255 /\
  0 <= IPv4Layer.protocol self <= 255 /\
  0 <= IPv4Layer.checksum self <= 65535.
Proof.
  unfold IPv4Layer.serialize, fmt_ipv4. split.
  - intros (out & H). apply rbind_inr in H as (bs & H & _).
    pack_inv H. repeat split; lia.
  - intros (H1 & H2 & H3 & H4 & H5 & H6 & H7 & H8).
    cbn [pack].
    rewrite !pack_item_FB_ok, !pack_item_FH_ok by assumption.
    cbn [rbind pack_item]. eauto.
Qed.

Lemma udp_serialize_returns (self : UDPLayer.t) (buf : BytesIO) :
  (exists out, UDPLayer.serialize self buf = inr out) <->
  0 <= UDPLayer.src_port self <= 65535 /\
  0 <= UDPLayer.dst_port self <= 65535 /\
  0 <= UDPLayer.length self <= 65535 /\
  0 <= UDPLayer.checksum self <= 65535.
Proof.
  unfold UDPLayer.serialize, fmt_udp. split.
  - intros (out & H). apply rbind_inr in H as (bs & H & _).
    pack_inv H. repeat split; lia.
  - intros (H1 & H2 & H3 & H4).
    cbn [pack]. rewrite !pack_item_FH_ok by assumption.
    cbn [rbind]. eauto.
Qed.

(** What a returning composition tells about the fields. *)
Lemma stack3_ranges (s : state) (a b c : loc)
    (ip : IPv4Layer.t) (udp : UDPLayer.t) (pay : Payload.t) (out : list byte) :
  heap s a = IPv4 ip -> heap s b = UDP udp -> heap s c = Pay pay ->
  returned (serialize_layers [a; b; c] s) = inr out ->
  Z.of_nat (length (Payload.payload pay)) <= 65507 /\
  0 <= IPv4Layer.verihl ip <= 255 /\
  0 <= IPv4Layer.dscp_ecn ip <= 255 /\
  0 <= IPv4Layer.id ip <= 65535 /\
  0 <= IPv4Layer.flags_fragment_offset ip <= 65535 /\
  0 <= IPv4Layer.ttl ip <= 255 /\
  0 <= IPv4Layer.protocol ip <= 255 /\
  0 <= IPv4Layer.checksum ip <= 65535 /\
  0 <= UDPLayer.src_port udp <= 65535 /\
  0 <= UDPLayer.dst_port udp <= 65535 /\
  0 <= UDPLayer.checksum udp <= 65535.
Proof.
  intros Ha Hb Hc. rewrite (stack3_run s a b c ip udp pay Ha Hb Hc).
  set (L := Z.of_nat (length (Payload.payload pay))).
  destruct (IPv4Layer.serialize _ []) as [e|b1] eqn:E1; [discriminate|].
  destruct (UDPLayer.serialize _ b1) as [e|b2] eqn:E2; [discriminate|].
  intros _.
  assert (Hi : exists out, IPv4Layer.serialize
                             (IPv4Layer.set_length ip (8 + L)) [] = inr out)
    by eauto.
  apply ipv4_serialize_returns in Hi. cbn in Hi.
  assert (Hu : exists out, UDPLayer.serialize (UDPLayer.set_length udp L) b1
                           = inr out) by eauto.
  apply udp_serialize_returns in Hu. cbn in Hu.
  unfold L in *. repeat split; lia.
Qed.

(** X5.  An IPv4/UDP/Payload composition returns exactly when the payload
    has at most 65507 bytes and every other integer of the two headers fits
    the width of its field; the constructor-supplied [total_length] and
    [length] play no part. *)
Theorem stack_returns_iff (s : state) (a b c : loc)
    (ip : IPv4Layer.t) (udp : UDPLayer.t) (pay : Payload.t) :
  heap s a = IPv4 ip -> heap s b = UDP udp -> heap s c = Pay pay ->
  (exists out, returned (serialize_layers [a; b; c] s) = inr out) <->
  (Z.of_nat (length (Payload.payload pay)) <= 65507 /\
   0 <= IPv4Layer.verihl ip <= 255 /\
   0 <= IPv4Layer.dscp_ecn ip <= 255 /\
   0 <= IPv4Layer.id ip <= 65535 /\
   0 <= IPv4Layer.flags_fragment_offset ip <= 65535 /\
   0 <= IPv4Layer.ttl ip <= 255 /\
   0 <= IPv4Layer.protocol ip <= 255 /\
   0 <= IPv4Layer.checksum ip <= 65535 /\
   0 <= UDPLayer.src_port udp <= 65535 /\
   0 <= UDPLayer.dst_port udp <= 65535 /\
   0 <= UDPLayer.checksum udp <= 65535).
Proof.
  intros Ha Hb Hc. split.
  { intros (out & H). exact (stack3_ranges s a b c ip udp pay out Ha Hb Hc H). }
  rewrite (stack3_run s a b c ip udp pay Ha Hb Hc).
  set (L := Z.of_nat (length (Payload.payload pay))).
  intros (HL & H1 & H2 & H3 & H4 & H5 & H6 & H7 & H8 & H9 & H10).
  destruct (ipv4_serialize_returns (IPv4Layer.set_length ip (8 + L)) [])
    as (_ & Hi).
  destruct Hi as (b1 & ->); [cbn; unfold L; repeat split; lia|].
  destruct (udp_serialize_returns (UDPLayer.set_length udp L) b1)
    as (_ & Hu).
  destruct Hu as (b2 & ->); [cbn; unfold L; repeat split; lia|].
  cbn. eauto.
Qed.

Lemma stack_returns_iff_main :
  (exists out, returned (serialize_layers [0; 1; 2]%nat main_state) = inr out)
  <->
  (Z.of_nat (length (Payload.payload main_payload)) <= 65507 /\
   0 <= IPv4Layer.verihl main_ipv4 <= 255 /\
   0 <= IPv4Layer.dscp_ecn main_ipv4 <= 255 /\
   0 <= IPv4Layer.id main_ipv4 <= 65535 /\
   0 <= IPv4Layer.flags_fragment_offset main_ipv4 <= 65535 /\
   0 <= IPv4Layer.ttl main_ipv4 <= 255 /\
   0 <= IPv4Layer.protocol main_ipv4 <= 255 /\
   0 <= IPv4Layer.checksum main_ipv4 <= 65535 /\
   0 <= UDPLayer.src_port main_udp <= 65535 /\
   0 <= UDPLayer.dst_port main_udp <= 65535 /\
   0 <= UDPLayer.checksum main_udp <= 65535).
Proof.
  apply (stack_returns_iff main_state 0 1 2 main_ipv4 main_udp main_payload);
    reflexivity.
Defined.

(** X6.  In the buffer of an IPv4/UDP/Payload composition byte 0 is 0x45
    (version 4, header length 5), byte 1 is 0, and the identification, the
    TTL and the two checksums are the constructor options ([id],
    [ttl], [checksum]) or their defaults 0, 64 and 0: no checksum is
    computed, although the UDP layer answers [has_checksum()] with true. *)
Theorem stack_header_fields (s : state) (a b c : loc)
    (protocol : Z) (src dst : string) (opts : gmap string Z)
    (sp dp : Z) (uopts : gmap string Z)
    (ip : IPv4Layer.t) (udp : UDPLayer.t) (pay : Payload.t)
    (out : list byte) :
  IPv4Layer.__init__ protocol src dst opts = inr ip ->
  UDPLayer.__init__ sp dp uopts = inr udp ->
  heap s a = IPv4 ip -> heap s b = UDP udp -> heap s c = Pay pay ->
  returned (serialize_layers [a; b; c] s) = inr out ->
  u8_at out 0 = Some 69 /\
  u8_at out 1 = Some 0 /\
  u16_at out 4 = Some (opts_get opts "id" 0) /\
  u8_at out 8 = Some (opts_get opts "ttl" 64) /\
  u16_at out 10 = Some (opts_get opts "checksum" 0) /\
  u16_at out 26 = Some (opts_get uopts "checksum" 0) /\
  has_checksum (UDP udp) = true.
Proof.
  intros Hip Hudp Ha Hb Hc Hout.
  destruct (stack3_ranges s a b c ip udp pay out Ha Hb Hc Hout)
    as (_ & _ & _ & Hid & _ & Httl & _ & Hck & _ & _ & Huck).
  destruct (stack3_returned s a b c ip udp pay out Ha Hb Hc Hout)
    as (_ & _ & _ & _ & ->).
  unfold IPv4Layer.__init__ in Hip.
  destruct (inet_aton src) as [e|x]; [discriminate|].
  destruct (inet_aton dst) as [e|y]; [discriminate|].
  cbn [rbind] in Hip. injection Hip as <-. injection Hudp as <-.
  cbn [IPv4Layer.verihl IPv4Layer.dscp_ecn IPv4Layer.id IPv4Layer.ttl
       IPv4Layer.checksum IPv4Layer.src_ip IPv4Layer.dst_ip
       IPv4Layer.flags_fragment_offset IPv4Layer.protocol
       UDPLayer.checksum UDPLayer.src_port UDPLayer.dst_port] in *.
  destruct (pad_to_4 x) as (x1 & x2 & x3 & x4 & ->).
  destruct (pad_to_4 y) as (y1 & y2 & y3 & y4 & ->).
  split; [reflexivity|]. split; [reflexivity|].
  split; [cbn; f_equal; apply u16_join; [lia | reflexivity]|].
  split; [cbn; f_equal; apply Z_of_byte_of_Z; lia|].
  split; [cbn; f_equal; apply u16_join; [lia | reflexivity]|].
  split; [cbn; f_equal; apply u16_join; [lia | reflexivity]|].
  reflexivity.
Qed.

Lemma stack_header_fields_main :
  u8_at main_out 0 = Some 69 /\
  u8_at main_out 1 = Some 0 /\
  u16_at main_out 4 = Some 0 /\
  u8_at main_out 8 = Some 64 /\
  u16_at main_out 10 = Some 0 /\
  u16_at main_out 26 = Some 0 /\
  has_checksum (UDP main_udp) = true.
Proof.
  generalize (stack_header_fields main_state 0 1 2 IPPROTO_UDP
           "192.168.0.55" "192.168.0.100" {[ "flags" := IPV4_DONT_FRAGMENT ]}
           5995 9559 ∅ main_ipv4 main_udp main_payload main_out).
  intros H. vm_compute in H |- *. apply H; reflexivity.
Defined.

(** Bytes 6-7 of the buffer. *)
Lemma stack3_flags_word (s : state) (a b c : loc)
    (protocol : Z) (src dst : string) (opts : gmap string Z)
    (ip : IPv4Layer.t) (udp : UDPLayer.t) (pay : Payload.t)
    (out : list byte) :
  IPv4Layer.__init__ protocol src dst opts = inr ip ->
  heap s a = IPv4 ip -> heap s b = UDP udp -> heap s c = Pay pay ->
  returned (serialize_layers [a; b; c] s) = inr out ->
  0 <= opts_get opts "fragment_offset" 0 < 8192 ->
  exists v : Z,
    u16_at out 6 = Some v /\
    Z.shiftr v 13 = opts_get opts "flags" 0 /\
    Z.land v 8191 = opts_get opts "fragment_offset" 0 /\
    0 <= opts_get opts "flags" 0 <= 7.
Proof.
  intros Hip Ha Hb Hc Hout Hfrag.
  destruct (stack3_ranges s a b c ip udp pay out Ha Hb Hc Hout)
    as (_ & _ & _ & _ & Hffo & _).
  destruct (stack3_returned s a b c ip udp pay out Ha Hb Hc Hout)
    as (_ & _ & _ & _ & ->).
  unfold IPv4Layer.__init__ in Hip.
  destruct (inet_aton src) as [e|x]; [discriminate|].
  destruct (inet_aton dst) as [e|y]; [discriminate|].
  cbn [rbind] in Hip. injection Hip as <-.
  cbn [IPv4Layer.verihl IPv4Layer.dscp_ecn IPv4Layer.id IPv4Layer.ttl
       IPv4Layer.checksum IPv4Layer.src_ip IPv4Layer.dst_ip
       IPv4Layer.flags_fragment_offset IPv4Layer.protocol] in *.
  set (f := opts_get opts "flags" 0) in *.
  set (o := opts_get opts "fragment_offset" 0) in *.
  replace (Z.shiftl f 13) with (f * 8192) in *
    by (rewrite Z.shiftl_mul_pow2 by lia; reflexivity).
  exists (f * 8192 + o). split; [|split; [|split]].
  - cbn. f_equal. apply u16_join; [lia | reflexivity].
  - rewrite Z.shiftr_div_pow2 by lia. change (2 ^ 13) with 8192.
    rewrite Z.div_add_l by lia. rewrite Z.div_small by lia. lia.
  - change 8191 with (Z.ones 13). rewrite Z.land_ones by lia.
    change (2 ^ 13) with 8192.
    rewrite Z.add_comm, Z.mod_add by lia. apply Z.mod_small. lia.
  - lia.
Qed.

(** X7.  With a fragment offset below 8192, bytes 6-7 of the buffer hold
    the [flags] option in their top three bits and the [fragment_offset]
    option in the low thirteen, and the flags are at most 7. *)
Theorem stack_flags_fragment_offset (s : state) (a b c : loc)
    (protocol : Z) (src dst : string) (opts : gmap string Z)
    (ip : IPv4Layer.t) (udp : UDPLayer.t) (pay : Payload.t)
    (out : list byte) :
  IPv4Layer.__init__ protocol src dst opts = inr ip ->
  heap s a = IPv4 ip -> heap s b = UDP udp -> heap s c = Pay pay ->
  returned (serialize_layers [a; b; c] s) = inr out ->
  0 <= opts_get opts "fragment_offset" 0 < 8192 ->
  exists v : Z,
    u16_at out 6 = Some v /\
    Z.shiftr v 13 = opts_get opts "flags" 0 /\
    Z.land v 8191 = opts_get opts "fragment_offset" 0 /\
    0 <= opts_get opts "flags" 0 <= 7.
Proof.
  exact (stack3_flags_word s a b c protocol src dst opts ip udp pay out).
Qed.

Lemma stack_flags_fragment_offset_main :
  exists v : Z,
    u16_at main_out 6 = Some v /\
    Z.shiftr v 13 = 2 /\
    Z.land v 8191 = 0 /\
    0 <= 2 <= 7.
Proof.
  generalize (stack_flags_fragment_offset main_state 0 1 2 IPPROTO_UDP
           "192.168.0.55" "192.168.0.100" {[ "flags" := IPV4_DONT_FRAGMENT ]}
           main_ipv4 main_udp main_payload main_out).
  intros H. vm_compute in H.
  destruct H as (v & H1 & H2 & H3 & H4);
    [reflexivity .. | split; [discriminate | reflexivity] |].
  exists v. vm_compute. auto.
Defined.

(** X8.  The three flag constants are the three top bits of bytes 6-7:
    with a fragment offset below 8192, bit 15 of the word is set exactly
    when [IPV4_EVIL_BIT] is among the flags, bit 14 when
    [IPV4_DONT_FRAGMENT] is, bit 13 when [IPV4_MORE_FRAGMENTS] is. *)
Theorem stack_flag_bits (s : state) (a b c : loc)
    (protocol : Z) (src dst : string) (opts : gmap string Z)
    (evil dont_fragment more_fragments : bool)
    (ip : IPv4Layer.t) (udp : UDPLayer.t) (pay : Payload.t)
    (out : list byte) :
  opts !! "flags" =
    Some (Z.lor (Z.lor (if evil then IPV4_EVIL_BIT else 0)
                       (if dont_fragment then IPV4_DONT_FRAGMENT else 0))
                (if more_fragments then IPV4_MORE_FRAGMENTS else 0)) ->
  0 <= opts_get opts "fragment_offset" 0 < 8192 ->
  IPv4Layer.__init__ protocol src dst opts = inr ip ->
  heap s a = IPv4 ip -> heap s b = UDP udp -> heap s c = Pay pay ->
  returned (serialize_layers [a; b; c] s) = inr out ->
  exists v : Z,
    u16_at out 6 = Some v /\
    Z.testbit v 15 = evil /\
    Z.testbit v 14 = dont_fragment /\
    Z.testbit v 13 = more_fragments.
Proof.
  intros Hflags Hfrag Hip Ha Hb Hc Hout.
  destruct (stack3_flags_word s a b c protocol src dst opts ip udp pay out
              Hip Ha Hb Hc Hout Hfrag) as (v & Hv & Hhi & _ & _).
  exists v. split; [exact Hv|].
  assert (Hf : opts_get opts "flags" 0 =
               Z.lor (Z.lor (if evil then IPV4_EVIL_BIT else 0)
                            (if dont_fragment then IPV4_DONT_FRAGMENT else 0))
                     (if more_fragments then IPV4_MORE_FRAGMENTS else 0))
    by (unfold opts_get; rewrite Hflags; reflexivity).
  rewrite Hf in Hhi.
  replace (Z.testbit v 15) with (Z.testbit (Z.shiftr v 13) 2)
    by (rewrite Z.shiftr_spec by lia; reflexivity).
  replace (Z.testbit v 14) with (Z.testbit (Z.shiftr v 13) 1)
    by (rewrite Z.shiftr_spec by lia; reflexivity).
  replace (Z.testbit v 13) with (Z.testbit (Z.shiftr v 13) 0)
    by (rewrite Z.shiftr_spec by lia; reflexivity).
  rewrite Hhi.
  destruct evil, dont_fragment, more_fragments; repeat split; reflexivity.
Qed.

Lemma stack_flag_bits_main :
  exists v : Z,
    u16_at main_out 6 = Some v /\
    Z.testbit v 15 = false /\
    Z.testbit v 14 = true /\
    Z.testbit v 13 = false.
Proof.
  apply (stack_flag_bits main_state 0 1 2 IPPROTO_UDP
           "192.168.0.55" "192.168.0.100" {[ "flags" := IPV4_DONT_FRAGMENT ]}
           false true false main_ipv4 main_udp main_payload main_out).
  - vm_compute. reflexivity.
  - vm_compute. split; [discriminate | reflexivity].
  - vm_compute. reflexivity.
  - reflexivity.
  - reflexivity.
  - reflexivity.
  - vm_compute. reflexivity.
Defined.

(** When the forward pass returns, the buffer has grown by the
    serializations of the layers, in their order. *)
Lemma spec_forward_concat (layers : list loc) (s s' : state) :
  spec_forward layers s = (s', inr tt) ->
  exists chunks : list (list byte),
    Forall2 (fun r chunk => serialize (heap s r) [] = inr chunk)
      layers chunks /\
    buf s' = buf s ++ concat chunks.
Proof.
  revert s. induction layers as [|layer rest IH]; intros s.
  - cbn. intros [= <-]. exists []. split; [constructor|].
    cbn. rewrite app_nil_r. reflexivity.
  - cbn [spec_forward]. unfold mbind, M_bind, m_serialize.
    cbn [log heap buf calls].
    pose proof (serialize_append (heap s layer) (buf s)) as Happ.
    destruct (serialize (heap s layer) (buf s)) as [e|b1]; [discriminate|].
    destruct Happ as (bs & -> & _ & Hbs).
    intros H. apply IH in H as (chunks & Hall & Hbuf). cbn [heap buf] in *.
    exists (bs :: chunks). split.
    + constructor; [apply (Hbs []) | exact Hall].
    + rewrite Hbuf. cbn [concat]. rewrite app_assoc. reflexivity.
Qed.

(** X9.  When the composer returns, the buffer is the concatenation, in
    the order of the sequence, of what each layer serializes to with the
    lengths the backward pass has set. *)
Theorem returned_is_concatenation (layers : list loc) (s : state)
    (out : list byte) :
  returned (serialize_layers layers s) = inr out ->
  exists chunks : list (list byte),
    Forall2 (fun r chunk =>
               serialize (heap (final (serialize_layers layers s)) r) []
               = inr chunk) layers chunks /\
    out = concat chunks.
Proof.
  unfold serialize_layers, returned, final, mbind, M_bind.
  destruct (for_each (reverse layers) backward_body (true, None) s)
    as [s1 [e|locals]]; [discriminate|].
  cbn [m_BytesIO]. rewrite forward_loop.
  pose proof (spec_forward_heap layers (mkstate (heap s1) [] (calls s1))) as Hh.
  destruct (spec_forward layers (mkstate (heap s1) [] (calls s1)))
    as [s2 [e|[]]] eqn:E; [discriminate|].
  cbn. intros [= <-]. apply spec_forward_concat in E as (chunks & Hall & Hbuf).
  cbn in Hall, Hbuf, Hh. rewrite Hh. eauto.
Qed.

Lemma returned_is_concatenation_main :
  exists chunks : list (list byte),
    Forall2 (fun r chunk =>
               serialize
                 (heap (final (serialize_layers [0; 1; 2]%nat main_state)) r)
                 [] = inr chunk) [0; 1; 2]%nat chunks /\
    main_out = concat chunks.
Proof.
  apply (returned_is_concatenation [0; 1; 2]%nat main_state main_out).
  vm_compute. reflexivity.
Defined.

(** X10.  Whatever the sequence, the composer changes nothing of an
    instance but the [total_length] of an [IPv4Layer] and the [length] of a
    [UDPLayer]; a [Payload] is never changed. *)
Theorem serialize_layers_changes_lengths_only (layers : list loc) (s : state)
    (r : loc) :
  match heap s r with
  | IPv4 x =>
      exists total_length : Z,
        heap (final (serialize_layers layers s)) r =
        IPv4 (IPv4Layer.mk (IPv4Layer.verihl x) (IPv4Layer.dscp_ecn x)
                total_length (IPv4Layer.id x) (IPv4Layer.flags x)
                (IPv4Layer.fragment_offset x)
                (IPv4Layer.flags_fragment_offset x) (IPv4Layer.ttl x)
                (IPv4Layer.protocol x) (IPv4Layer.checksum x)
                (IPv4Layer.src_ip x) (IPv4Layer.dst_ip x))
  | UDP x =>
      exists length : Z,
        heap (final (serialize_layers layers s)) r =
        UDP (UDPLayer.mk (UDPLayer.src_port x) (UDPLayer.dst_port x)
               length (UDPLayer.checksum x))
  | Pay x => heap (final (serialize_layers layers s)) r = Pay x
  end.
Proof.
  destruct (serialize_layers_only_sets_lengths layers s r) as [H|[n H]];
    rewrite H; destruct (heap s r) as [x|x|x]; try reflexivity.
  - exists (IPv4Layer.total_length x). destruct x; reflexivity.
  - exists (UDPLayer.length x). destruct x; reflexivity.
  - eexists. reflexivity.
  - eexists. reflexivity.
Qed.

(** * Lengths that do not fit their field *)

(** A length that does not fit is refused by [struct.pack], whatever the
    buffer holds. *)
Lemma serialize_length_overflow (o : obj) (t : Z) (buf : BytesIO) :
  length_field o = Some t -> ~ 0 <= t <= 65535 ->
  serialize o buf = inl StructError.
Proof.
  destruct o as [x|x|x]; cbn; intros [= <-] Ht.
  - apply ipv4_serialize_overflow. exact Ht.
  - apply udp_serialize_overflow. tauto.
Qed.

Lemma length_field_header (o : obj) (t : Z) :
  length_field o = Some t -> is_header o = true /\ get_total_length o = t.
Proof. destruct o; cbn; intros [= <-]; auto. Qed.

(** The forward pass raises as soon as one of its layers does. *)
Lemma spec_forward_overflow (layers : list loc) (s : state) (r : loc) (t : Z) :
  In r layers ->
  length_field (heap s r) = Some t -> ~ 0 <= t <= 65535 ->
  returned (spec_forward layers s) = inl StructError.
Proof.
  intros Hr Hf Ht. revert s Hr Hf.
  induction layers as [|y rest IH]; intros s Hr Hf; [destruct Hr|].
  cbn [spec_forward]. unfold mbind, M_bind, m_serialize.
  cbn [log heap buf calls].
  pose proof (serialize_append (heap s y) (buf s)) as Happ.
  destruct (serialize (heap s y) (buf s)) as [e|b1] eqn:E.
  - destruct Happ as (-> & _). reflexivity.
  - destruct Hr as [->|Hr].
    + rewrite (serialize_length_overflow _ t _ Hf Ht) in E. discriminate.
    + apply IH; [exact Hr | exact Hf].
Qed.

(** Over headers the running length only grows, and every header walked
    ends with a total length between the first and the last running
    length. *)
Lemma walk_bounds (others : list loc) (n : Z) (s : state) (r : loc) :
  Forall (fun x => is_header (heap s x) = true) others ->
  In r others ->
  n <= get_total_length (heap (final (spec_walk_backward others n s)) r) /\
  get_total_length (heap (final (spec_walk_backward others n s)) r) <=
  n + Z.of_nat (sum_list_with (fun x => wire_size (heap s x)) others).
Proof.
  revert n s. induction others as [|y rest IH]; intros n s Hh Hr;
    [destruct Hr|].
  apply Forall_cons in Hh as (Hy & Hrest).
  rewrite walk_cons.
  set (s1 := mkstate _ _ _).
  destruct (header_set_length (heap s y) n Hy) as (_ & Hn1). rewrite Hn1.
  assert (Hh1 : Forall (fun x => is_header (heap s1 x) = true) rest).
  { eapply Forall_impl; [exact Hrest|]. intros x Hx. unfold s1. cbn [heap].
    rewrite is_header_insert. exact Hx. }
  assert (Hsum : sum_list_with (fun x => wire_size (heap s1 x)) rest =
                 sum_list_with (fun x => wire_size (heap s x)) rest).
  { apply sum_list_with_wire_ext. intros x. unfold s1. cbn [heap].
    apply wire_size_insert. }
  cbn [sum_list_with].
  destruct (In_dec Nat.eq_dec r rest) as [Hin|Hnin].
  - destruct (IH (Z.of_nat (wire_size (heap s y)) + n) s1 Hh1 Hin) as (H1 & H2).
    rewrite Hsum in H2. lia.
  - destruct Hr as [->|Hr]; [|contradiction].
    rewrite walk_frame by exact Hnin. unfold s1. cbn [heap].
    rewrite fn_lookup_insert, Hn1. lia.
Qed.

(** C5, as stated, fails twice.  A payload of 65508 bytes makes the IPv4
    total length 65536, and the composition raises [struct.error], not a
    [LengthOverflowError].  And with a payload first, then a UDP header
    over 65528 bytes, the UDP length is 65536 and the exception is raised
    when the eleven bytes of the first layer are already in the buffer. *)
Lemma big_payload_struct_error :
  returned (serialize_layers [0; 1; 2]%nat big_state) = inl StructError /\
  returned (serialize_layers [0; 1; 2]%nat big_state) <>
  inl LengthOverflowError /\
  returned (serialize_layers [0; 1; 2]%nat udp_big_state) = inl StructError /\
  buf (final (serialize_layers [0; 1; 2]%nat udp_big_state)) = hello_world.
Proof.
  assert (H : returned (serialize_layers [0; 1; 2]%nat big_state)
              = inl StructError) by (vm_compute; reflexivity).
  split; [exact H|]. split; [rewrite H; discriminate|].
  split; vm_compute; reflexivity.
Qed.

(** C5, amended.  Whatever the layer sequence, an IPv4 total length or a
    UDP length that does not fit 16 bits after the backward pass makes
    [serialize_layers] raise [struct.error]: nothing is returned, and the
    value is neither truncated nor wrapped.  When every layer before the
    innermost is a header and the innermost is a [Payload], the length is
    above 65535 and the outermost header is refused first, with nothing
    written to the buffer yet. *)
Theorem length_overflow_struct_error (outer : list loc) (innermost : loc)
    (s : state) (r : loc) (t : Z) :
  In r (outer ++ [innermost]) ->
  length_field
    (heap (final (serialize_layers (outer ++ [innermost]) s)) r) = Some t ->
  ~ 0 <= t <= 65535 ->
  returned (serialize_layers (outer ++ [innermost]) s) = inl StructError /\
  (Forall (fun x => is_header (heap s x) = true) outer ->
   is_header (heap s innermost) = false ->
   65535 < t /\
   buf (final (serialize_layers (outer ++ [innermost]) s)) = []).
Proof.
  intros Hr Hf Ht.
  rewrite serialize_layers_heap in Hf.
  rewrite serialize_layers_passes. cbv zeta.
  set (n0 := get_total_length (heap s innermost)) in *.
  set (s0 := log (Call_get_total_length innermost) s) in *.
  set (sb := final (spec_walk_backward (reverse outer) n0 s0)) in *.
  split.
  - pose proof (spec_forward_overflow (outer ++ [innermost])
                  (mkstate (heap sb) [] (calls sb)) r t Hr Hf Ht) as H.
    destruct (spec_forward _ _) as [s4 [e|[]]]; cbn in H |- *;
      [congruence | discriminate].
  - intros Hh Hin.
    destruct (length_field_header _ _ Hf) as (Hhdr & Htot).
    assert (Hhdr0 : is_header (heap s r) = true).
    { destruct (walk_set_length (reverse outer) n0 s0 r) as [H|[m H]];
        fold sb in H; rewrite H in Hhdr;
        [|rewrite is_header_set_length in Hhdr]; exact Hhdr. }
    assert (Hro : In r (reverse outer)).
    { apply in_app_or in Hr as [Hr|[<-|[]]]; [|congruence].
      rewrite <- list_elem_of_In, elem_of_reverse, list_elem_of_In. exact Hr. }
    assert (Hh' : Forall (fun x => is_header (heap s0 x) = true)
                    (reverse outer)) by (apply Forall_reverse; exact Hh).
    destruct (walk_bounds (reverse outer) n0 s0 r Hh' Hro) as (Hlo & Hhi).
    fold sb in Hlo, Hhi. rewrite Htot in Hlo, Hhi.
    assert (Hn0 : 0 <= n0).
    { unfold n0. destruct (heap s innermost) as [x|x|x]; try discriminate.
      cbn. unfold Payload.get_total_length. lia. }
    assert (Hbig : 65535 < t) by lia.
    split; [exact Hbig|].
    destruct outer as [|first outer']; [destruct Hro|].
    destruct (walk_total (reverse (first :: outer')) n0 s0 Hh') as (_ & Hlast).
    specialize (Hlast first). rewrite last_reverse in Hlast.
    specialize (Hlast eq_refl). fold sb in Hlast.
    assert (Hfirst : is_header (heap sb first) = true).
    { apply Forall_cons in Hh as (Hf1 & _).
      destruct (walk_set_length (reverse (first :: outer')) n0 s0 first)
        as [H|[m H]]; fold sb in H; rewrite H;
        [|rewrite is_header_set_length]; exact Hf1. }
    assert (Hser : serialize (heap sb first) [] = inl StructError).
    { destruct (heap sb first) as [x|x|x] eqn:E; try discriminate.
      - apply (serialize_length_overflow _ (IPv4Layer.total_length x));
          [reflexivity|].
        cbn [get_total_length obj_Layer IPv4Layer_Layer] in Hlast.
        unfold IPv4Layer.get_total_length in Hlast. lia.
      - apply (serialize_length_overflow _ (UDPLayer.length x));
          [reflexivity|].
        cbn [get_total_length obj_Layer UDPLayer_Layer] in Hlast.
        unfold UDPLayer.get_total_length in Hlast. lia. }
    cbn [app spec_forward]. unfold mbind, M_bind, m_serialize.
    cbn [log heap buf calls]. rewrite Hser. reflexivity.
Qed.

(** A UDP header over 65528 bytes. *)
Lemma length_overflow_struct_error_udp :
  returned (serialize_layers ([1] ++ [2])%nat udp_big_state) =
  inl StructError /\
  65535 < 65536 /\
  buf (final (serialize_layers ([1] ++ [2])%nat udp_big_state)) = [].
Proof.
  destruct (length_overflow_struct_error [1%nat] 2%nat udp_big_state 1%nat
              65536) as (HA & HB).
  - simpl. lia.
  - vm_compute. reflexivity.
  - lia.
  - split; [exact HA|]. apply HB; [repeat constructor | reflexivity].
Defined.
